(** * BatchBuddy: student clustering and weekly topic assignment

    A shallow embedding of [ap.py]: the score expression evaluated by
    [load_and_clean_data], [categorize_students], [create_balanced_batches],
    [assign_topics], [prepare_output] and [export_batches_individually],
    followed by the properties of the design document that they decide.

    Conventions of the embedding.
    - A Python [str] is a [string]; every character is a code point below 256.
    - A Python [float] is represented by the rational number it stands for:
      the comparisons of [pd.cut] are exact on it, and arithmetic is the exact
      arithmetic that the floating-point operations round.  The numbers that
      [eval] reads in the model are short enough for neither overflow nor
      underflow to occur in the score expression.
    - A raised exception is a value of [exn]; a function that can raise
      returns a [result]. *)

From Stdlib Require Import List String Ascii Bool Arith ZArith QArith Lia Lqa.
From Stdlib Require Import Permutation DecimalString DecimalNat.
Import ListNotations.

Set Implicit Arguments.
Close Scope Q_scope.

(** [length] is the length of a list; that of a string is [String.length]. *)
Abbreviation length := List.length (only parsing).

(** ** Exceptions and results *)

(** The built-in exceptions the modelled code can raise. *)
Inductive exn : Type :=
| IndexError          (* list index out of range *)
| SyntaxError         (* eval of a string that is not an expression *)
| ZeroDivisionError   (* division by zero *)
| StopIteration       (* next() on an exhausted iterator *)
| ValueError          (* pd.concat of no objects *)
| KeyError            (* a column that a frame does not have *)
| InvalidIndexError.  (* Series.map through a Series with a repeated index *)

Inductive result (A : Type) : Type :=
| Ok (a : A)
| Raise (e : exn).

Arguments Ok {A} a.
Arguments Raise {A} e.

Definition bind {A B : Type} (r : result A) (k : A -> result B) : result B :=
  match r with
  | Ok a => k a
  | Raise e => Raise e
  end.

Declare Scope result_scope.
Delimit Scope result_scope with result.
Notation "x <- r ;; k" := (bind r (fun x => k))
  (at level 61, r at next level, right associativity) : result_scope.
Notation "' p <- r ;; k" := (bind r (fun p => k))
  (at level 61, p pattern, r at next level, right associativity) : result_scope.

(** ** Python strings *)

Module PyStr.

Local Open Scope string_scope.

(** [str.isspace] on one character, for the code points below 256. *)
Definition isspace (c : ascii) : bool :=
  let n := nat_of_ascii c in
  (((9 <=? n) && (n <=? 13)) || ((28 <=? n) && (n <=? 32))
   || (n =? 133) || (n =? 160))%nat.

Definition isdigit (c : ascii) : bool :=
  let n := nat_of_ascii c in ((48 <=? n) && (n <=? 57))%nat.

(** [s.split(sep)] for a separator of one character: every occurrence of
    [sep] cuts, so the result has one more piece than [s] has separators. *)
Fixpoint split (sep : ascii) (s : string) : list string :=
  match s with
  | EmptyString => [EmptyString]
  | String c s' =>
      if Ascii.eqb c sep then EmptyString :: split sep s'
      else match split sep s' with
           | [] => [String c EmptyString]
           | piece :: pieces => String c piece :: pieces
           end
  end.

Fixpoint lstrip (s : string) : string :=
  match s with
  | EmptyString => EmptyString
  | String c s' => if isspace c then lstrip s' else s
  end.

Fixpoint rstrip (s : string) : string :=
  match s with
  | EmptyString => EmptyString
  | String c s' =>
      match rstrip s' with
      | EmptyString => if isspace c then EmptyString else String c EmptyString
      | r => String c r
      end
  end.

(** [s.strip()] *)
Definition strip (s : string) : string := rstrip (lstrip s).

(** [str(n)] for a non-negative integer, as an f-string formats it. *)
Definition str (n : nat) : string := NilEmpty.string_of_uint (Nat.to_uint n).

Fixpoint forallb_string (p : ascii -> bool) (s : string) : bool :=
  match s with
  | EmptyString => true
  | String c s' => p c && forallb_string p s'
  end.


End PyStr.

(** ** Score Normalizer: the lambda of [load_and_clean_data] (line 49) *)

Module Normalizer.

Import PyStr.
Local Open Scope string_scope.

(** A Python number: [int] or [float]. *)
Inductive pyval : Type :=
| PyInt (z : Z)
| PyFloat (q : Q).

Definition number (v : pyval) : Q :=
  match v with
  | PyInt z => inject_Z z
  | PyFloat q => q
  end.

(** The value of a string of decimal digits, most significant first. *)
Fixpoint digits_value (acc : Z) (s : string) : Z :=
  match s with
  | EmptyString => acc
  | String c s' =>
      digits_value (10 * acc + (Z.of_nat (nat_of_ascii c) - 48))%Z s'
  end.

Definition all_digits (s : string) : bool := forallb_string isdigit s.

Definition all_zeros (s : string) : bool :=
  forallb_string (fun c => Ascii.eqb c "0"%char) s.

(** The longest prefix of digits, and the rest. *)
Fixpoint span_digits (s : string) : string * string :=
  match s with
  | EmptyString => (EmptyString, EmptyString)
  | String c s' =>
      if isdigit c
      then let (ds, rest) := span_digits s' in (String c ds, rest)
      else (EmptyString, s)
  end.

(** Python's [decinteger]: a non-zero digit followed by digits, or zeros
    only.  Any other string of digits ("08") is a syntax error. *)
Definition int_literal (s : string) : bool :=
  match s with
  | EmptyString => false
  | String c _ => all_digits s && (negb (Ascii.eqb c "0"%char) || all_zeros s)
  end.

(** Python's [pointfloat] without exponent: digits, a point, digits, with a
    digit on at least one side. *)
Definition float_literal (s : string) : bool :=
  let (ip, rest) := span_digits s in
  match rest with
  | String "."%char fr =>
      all_digits fr && negb ((ip =? "") && (fr =? ""))
  | _ => false
  end.

Definition float_literal_value (s : string) : Q :=
  let (ip, rest) := span_digits s in
  match rest with
  | String "."%char fr =>
      (inject_Z (digits_value 0 (ip ++ fr))
       / inject_Z (10 ^ Z.of_nat (String.length fr)))%Q
  | _ => 0%Q
  end.

(** The built-in [eval] on the strings the model covers, all of at most 15
    characters: a decimal integer literal, a point-float literal, a string of
    digits that is not a literal, and the empty string.  [None] stands for
    every other string.  A longer literal has a value that a float need not
    hold, exactly or at all; any other text is evaluated by Python as an
    expression in the environment of the caller, which this model does not
    describe. *)
Definition py_eval (s : string) : option (result pyval) :=
  if (15 <? String.length s)%nat then None
  else if s =? "" then Some (Raise SyntaxError)
  else if all_digits s then
    if int_literal s then Some (Ok (PyInt (digits_value 0 s)))
    else Some (Raise SyntaxError)
  else if float_literal s then Some (Ok (PyFloat (float_literal_value s)))
  else None.

(** [a / b] on numbers: true division, a float. *)
Definition truediv (a b : pyval) : result pyval :=
  if Qeq_bool (number b) 0 then Raise ZeroDivisionError
  else Ok (PyFloat (number a / number b)%Q).

(** [a * b] where one side is a float. *)
Definition mul (a b : pyval) : pyval := PyFloat (number a * number b)%Q.

(** [lst[i]] *)
Definition getitem {A : Type} (l : list A) (i : nat) : result A :=
  match nth_error l i with
  | Some a => Ok a
  | None => Raise IndexError
  end.

(** [lambda x: eval(x.split('/')[0].strip())
                 / eval(x.split('/')[1].strip()) * 100]

    The operands are evaluated left to right.  [None] when [eval] is applied
    to a string outside the model. *)
Definition normalize_score (x : string) : option (result pyval) :=
  match getitem (split "/" x) 0 with
  | Raise e => Some (Raise e)
  | Ok earned_text =>
      match py_eval (strip earned_text) with
      | None => None
      | Some (Raise e) => Some (Raise e)
      | Some (Ok earned) =>
          match getitem (split "/" x) 1 with
          | Raise e => Some (Raise e)
          | Ok total_text =>
              match py_eval (strip total_text) with
              | None => None
              | Some (Raise e) => Some (Raise e)
              | Some (Ok total) =>
                  match truediv earned total with
                  | Raise e => Some (Raise e)
                  | Ok ratio => Some (Ok (mul ratio (PyInt 100)))
                  end
              end
          end
      end
  end.

End Normalizer.

(** ** Categorizer: [categorize_students] (lines 58-62) *)

Module Categorizer.

Inductive tier : Type := Low | Medium | High.

Definition tier_eqb (a b : tier) : bool :=
  match a, b with
  | Low, Low | Medium, Medium | High, High => true
  | _, _ => false
  end.

(** A row of the cleaned frame: the columns [name] and [score]. *)
Record student : Type := { name : string; score : Q }.

(** A row after [data['category'] = ...]; [None] is the missing value NaN. *)
Record categorized_row : Type := { who : student; category : option tier }.

(** [pd.cut(x, bins=bins, labels=labels)] on one value, with the default
    [right=True]: the i-th label when [bins[i] < x <= bins[i+1]], and NaN
    when [x] is in none of the intervals. *)
Fixpoint cut (x : Q) (bins : list Q) (labels : list tier) : option tier :=
  match bins, labels with
  | lo :: ((hi :: _) as bins'), label :: labels' =>
      if negb (Qle_bool x lo) && Qle_bool x hi then Some label
      else cut x bins' labels'
  | _, _ => None
  end.

Definition bins : list Q := [(-1)%Q; 40%Q; 70%Q; 100%Q].
Definition labels : list tier := [Low; Medium; High].

(** The tier [categorize_students] gives to one percentage. *)
Definition categorize (p : Q) : option tier := cut p bins labels.

Definition categorize_students (data : list student) : list categorized_row :=
  map (fun s => {| who := s; category := categorize (score s) |}) data.

End Categorizer.

(** ** Batch Builder: [create_balanced_batches] (lines 65-77) *)

Module BatchBuilder.

Import Categorizer.

Definition batch : Type := list categorized_row.

(** [row['category'] == label]: false on NaN. *)
Definition has_category (label : tier) (r : categorized_row) : bool :=
  match category r with
  | Some t => tier_eqb t label
  | None => false
  end.

(** [frame[frame['category'] == label]] *)
Definition select (label : tier) (frame : list categorized_row)
  : list categorized_row :=
  filter (has_category label) frame.

(** The dictionary [categorized], keys 'High', 'Medium', 'Low'. *)
Record pools : Type :=
  { high : list categorized_row;
    medium : list categorized_row;
    low : list categorized_row }.

Definition make_pools (data : list categorized_row) : pools :=
  {| high := select High data;
     medium := select Medium data;
     low := select Low data |}.

(** [any(len(v) > 0 for v in categorized.values())] *)
Definition any_left (p : pools) : bool :=
  (0 <? length (high p)) || (0 <? length (medium p)) || (0 <? length (low p)).

(** [pd.concat([High[:2], Medium[:2]] + [Low[:1]], ignore_index=True)] *)
Definition take_batch (p : pools) : batch :=
  firstn 2 (high p) ++ firstn 2 (medium p) ++ firstn 1 (low p).

(** For each of the three labels,
    [categorized[label] =
       categorized[label].iloc[len(batch[batch['category'] == label]):]]. *)
Definition advance (p : pools) (b : batch) : pools :=
  {| high := skipn (length (select High b)) (high p);
     medium := skipn (length (select Medium b)) (medium p);
     low := skipn (length (select Low b)) (low p) |}.

(** [batch.empty] *)
Definition empty (b : batch) : bool :=
  match b with [] => true | _ :: _ => false end.

(** The [while] loop, with the list [batches] it appends to.  [fuel] bounds
    the number of iterations; [None] when it runs out before the loop ends. *)
Fixpoint loop (fuel : nat) (p : pools) (batches : list batch)
  : option (list batch) :=
  match fuel with
  | O => None
  | S fuel' =>
      if any_left p then
        let b := take_batch p in
        let p' := advance p b in
        loop fuel' p' (if empty b then batches else batches ++ [b])
      else Some batches
  end.

Definition create_balanced_batches_fuel (fuel : nat)
    (data : list categorized_row) : option (list batch) :=
  loop fuel (make_pools data) [].

(** One iteration is enough for each row and one for the final test. *)
Definition create_balanced_batches (data : list categorized_row)
  : option (list batch) :=
  create_balanced_batches_fuel (S (length data)) data.

(** The state of the pools after [n] iterations of the loop body. *)
Fixpoint iterate (n : nat) (p : pools) : pools :=
  match n with
  | O => p
  | S n' => iterate n' (advance p (take_batch p))
  end.

Definition remaining (p : pools) : nat :=
  length (high p) + length (medium p) + length (low p).

End BatchBuilder.

(** ** Topic Rotator: [assign_topics] (lines 80-87) *)

Module Rotator.

Import PyStr.
Local Open Scope string_scope.
Local Open Scope result_scope.

(** A topic dictionary: the keys "Topic" and "Description". *)
Record topic : Type := { Topic : string; Description : string }.

(** An assignment dictionary: the keys "Week", "Batch" and "Topic". *)
Record assignment : Type :=
  { Week : nat; Batch : string; AssignedTopic : string }.

(** [itertools.cycle(topics)]: the items, and the index of the next one. *)
Record cycle : Type := { items : list topic; cursor : nat }.

Definition itertools_cycle (topics : list topic) : cycle :=
  {| items := topics; cursor := 0 |}.

(** [next(topic_cycle)]: the item under the cursor, which then moves on and
    returns to the start after the last item.  A cycle over no item is
    exhausted at once. *)
Definition next (c : cycle) : result (topic * cycle) :=
  match nth_error (items c) (cursor c) with
  | Some t =>
      Ok (t, {| items := items c;
                cursor := if (S (cursor c) <? length (items c))%nat
                          then S (cursor c) else 0 |})
  | None => Raise StopIteration
  end.

(** [f"Batch {i + 1}"] *)
Definition batch_label (i : nat) : string := "Batch " ++ str (i + 1).

(** The inner loop [for i, batch in enumerate(batches)], from index [i]. *)
Fixpoint assign_week {A : Type} (week i : nat) (batches : list A)
    (topic_cycle : cycle) (assignments : list assignment)
  : result (cycle * list assignment) :=
  match batches with
  | [] => Ok (topic_cycle, assignments)
  | _ :: rest =>
      '(t, topic_cycle') <- next topic_cycle ;;
      assign_week week (S i) rest topic_cycle'
        (assignments ++
           [{| Week := week;
               Batch := batch_label i;
               AssignedTopic := Topic t |}])
  end.

(** The outer loop [for week in range(1, weeks + 1)], over the weeks left. *)
Fixpoint assign_weeks {A : Type} (weeks : list nat) (batches : list A)
    (topic_cycle : cycle) (assignments : list assignment)
  : result (cycle * list assignment) :=
  match weeks with
  | [] => Ok (topic_cycle, assignments)
  | week :: later =>
      '(topic_cycle', assignments') <-
        assign_week week 0 batches topic_cycle assignments ;;
      assign_weeks later batches topic_cycle' assignments'
  end.

Definition assign_topics {A : Type} (batches : list A) (topics : list topic)
    (weeks : nat) : result (list assignment) :=
  '(_, assignments) <-
    assign_weeks (seq 1 weeks) batches (itertools_cycle topics) [] ;;
  Ok assignments.

End Rotator.

(** ** Output Composer: [prepare_output] (lines 90-101) and
       [export_batches_individually] (lines 104-113) *)

Module Composer.

Import PyStr Categorizer BatchBuilder Rotator.
Local Open Scope string_scope.
Local Open Scope result_scope.

(** [enumerate(l)] *)
Definition enumerate {A : Type} (l : list A) : list (nat * A) :=
  combine (seq 0 (length l)) l.

(** The frame [result]: the columns 'Name' and 'Batch', and the columns
    added afterwards, each a label with one cell per row (NaN is [None]). *)
Record table : Type :=
  { Name : list string;
    BatchColumn : list string;
    added : list (string * list (option string)) }.

(** [pd.DataFrame({'Name': batch['name'], 'Batch': f"Batch {i + 1}"})]:
    one (name, label) row per row of the batch. *)
Definition batch_frame (i : nat) (b : batch) : list (string * string) :=
  map (fun r => (name (who r), batch_label i)) b.

(** [pd.concat(frames, ignore_index=True)], which refuses an empty list. *)
Definition pd_concat {A : Type} (frames : list (list A)) : result (list A) :=
  match frames with
  | [] => Raise ValueError
  | _ :: _ => Ok (List.concat frames)
  end.

(** [result[label] = column]: replaces the column of that label, or adds one
    after the last. *)
Fixpoint set_column (label : string) (column : list (option string))
    (columns : list (string * list (option string)))
  : list (string * list (option string)) :=
  match columns with
  | [] => [(label, column)]
  | (l, c) :: rest =>
      if l =? label then (label, column) :: rest
      else (l, c) :: set_column label column rest
  end.

Fixpoint lookup (key : string) (series : list (string * string))
  : option string :=
  match series with
  | [] => None
  | (k, v) :: rest => if k =? key then Some v else lookup key rest
  end.

Fixpoint unique (keys : list string) : bool :=
  match keys with
  | [] => true
  | k :: rest => negb (existsb (String.eqb k) rest) && unique rest
  end.

(** [column.map(series)]: each cell looked up in the index of [series], NaN
    where it is absent; an index with a repeated label is refused. *)
Definition series_map (column : list string) (series : list (string * string))
  : result (list (option string)) :=
  if unique (map fst series)
  then Ok (map (fun cell => lookup cell series) column)
  else Raise InvalidIndexError.

(** [assignment_df[assignment_df['Week'] == week]
       .set_index('Batch')['Topic']] *)
Definition week_topics (week : nat) (assignments : list assignment)
  : list (string * string) :=
  map (fun a => (Batch a, AssignedTopic a))
      (filter (fun a => Week a =? week)%nat assignments).

(** [f"Week {week} Topic"] *)
Definition week_label (week : nat) : string := "Week " ++ str week ++ " Topic".

(** The loop [for week in range(1, max + 1)], over the weeks left. *)
Fixpoint add_weeks (weeks : list nat) (assignments : list assignment)
    (t : table) : result table :=
  match weeks with
  | [] => Ok t
  | week :: later =>
      column <- series_map (BatchColumn t) (week_topics week assignments) ;;
      add_weeks later assignments
        {| Name := Name t;
           BatchColumn := BatchColumn t;
           added := set_column (week_label week) column (added t) |}
  end.

(** [assignment_df['Week'].max()]; a frame built from no dictionary has no
    column 'Week'. *)
Definition max_week (assignments : list assignment) : result nat :=
  match assignments with
  | [] => Raise KeyError
  | _ :: _ => Ok (list_max (map Week assignments))
  end.

Definition prepare_output (batches : list batch)
    (assignments : list assignment) : result table :=
  rows <- pd_concat (map (fun '(i, b) => batch_frame i b)
                         (enumerate batches)) ;;
  last_week <- max_week assignments ;;
  add_weeks (seq 1 last_week) assignments
    {| Name := map fst rows; BatchColumn := map snd rows; added := [] |}.

(** The archive: one entry per batch, its file name and the rows written
    (the columns name, score and category of each row of the batch). *)
Definition archive : Type := list (string * list categorized_row).

Definition export_batches_individually (batches : list batch) : archive :=
  map (fun '(i, b) => ("Batch_" ++ str (i + 1) ++ ".csv", b))
      (enumerate batches).

(** Lines 126-139 of the script: the assignments, the combined table and the
    archive, from the batches, the topics and the number of weeks (5 there).
    The table and the archive are shown only when all three calls return. *)
Definition compose (batches : list batch) (topics : list topic) (weeks : nat)
  : result (table * archive) :=
  topic_assignments <- assign_topics batches topics weeks ;;
  output <- prepare_output batches topic_assignments ;;
  Ok (output, export_batches_individually batches).

(** The cell of a row in an added column. *)
Definition cell (t : table) (label : string) (row : nat)
  : option (option string) :=
  match find (fun lc => fst lc =? label) (added t) with
  | Some (_, column) => nth_error column row
  | None => None
  end.

End Composer.

(** ** Loading: [load_and_clean_data] (lines 38-55) *)

Module Loader.

Import PyStr Normalizer Categorizer.
Local Open Scope string_scope.

(** A cell of a frame read from a file: the missing value NaN, a string, or
    a number. *)
Inductive cell : Type :=
| Missing
| Text (s : string)
| Number (q : Q).

(** What [pd.read_csv] returns: the column labels, and the rows, each with
    its cells in the order of the labels. *)
Record frame : Type := { labels : list string; rows : list (list cell) }.

(** An uploaded file: [file.name], and the frame that [pd.read_csv(file)]
    returns, or [None] when that call raises. *)
Record upload : Type := { file_name : string; read_csv : option frame }.

(** [str.lower] on one character, for the code points below 256: the
    letters A-Z and the letters from 192 to 222, the sign 215 apart. *)
Definition lower_char (c : ascii) : ascii :=
  let n := nat_of_ascii c in
  if (((65 <=? n) && (n <=? 90))
      || ((192 <=? n) && (n <=? 222) && negb (n =? 215)))%nat
  then ascii_of_nat (n + 32)
  else c.

Fixpoint lower (s : string) : string :=
  match s with
  | EmptyString => EmptyString
  | String c s' => String (lower_char c) (lower s')
  end.

(** [df.columns.str.lower().str.strip()] on one label. *)
Definition clean_label (label : string) : string := strip (lower label).

(** What the [except] clause catches: an exception of [pd.read_csv], the
    AttributeError of [x.split] on a cell that is not a string, or the
    exception of the score expression. *)
Inductive file_error : Type :=
| ReadError
| AttributeError
| ScoreError (e : exn).

(** The calls of [st.error]: the two messages, with what they are about. *)
Inductive report : Type :=
| MissingColumns (file : string)
| ErrorInFile (file : string) (e : file_error).

(** [label in columns] *)
Definition has_label (label : string) (columns : list string) : bool :=
  existsb (String.eqb label) columns.

Definition occurrences (label : string) (columns : list string) : nat :=
  length (filter (String.eqb label) columns).

(** The position of the first column with this label. *)
Fixpoint position (label : string) (columns : list string) : nat :=
  match columns with
  | [] => 0
  | c :: rest => if c =? label then 0 else S (position label rest)
  end.

(** The cell of a row in the column at a position; a row with fewer fields
    than the header has NaN in the others. *)
Definition field_at (row : list cell) (column : nat) : cell :=
  nth column row Missing.

Definition present (c : cell) : bool :=
  match c with Missing => false | _ => true end.

(** [df[['name', 'score']].dropna()]: the two cells of each row that has
    both. *)
Definition name_score_rows (name_at score_at : nat) (body : list (list cell))
  : list (cell * cell) :=
  filter (fun r => present (fst r) && present (snd r))
         (map (fun row => (field_at row name_at, field_at row score_at)) body).

(** [df['score'].apply(lambda x: ...)]: the cells in order, up to the first
    one on which the expression raises.  [None] when [eval] meets a text
    outside the model before that. *)
Fixpoint apply_score (cells : list cell) : option (file_error + list Q) :=
  match cells with
  | [] => Some (inr [])
  | Text x :: rest =>
      match normalize_score x with
      | None => None
      | Some (Raise e) => Some (inl (ScoreError e))
      | Some (Ok v) =>
          match apply_score rest with
          | None => None
          | Some (inl e) => Some (inl e)
          | Some (inr scores) => Some (inr (number v :: scores))
          end
      end
  | _ :: _ => Some (inl AttributeError)
  end.

(** The rows of the cleaned frame; [None] when a name is a number, which
    the rows of this model cannot hold. *)
Fixpoint students_of (names : list cell) (scores : list Q)
  : option (list student) :=
  match names, scores with
  | Text n :: names', q :: scores' =>
      match students_of names' scores' with
      | Some l => Some ({| name := n; score := q |} :: l)
      | None => None
      end
  | [], [] => Some []
  | _, _ => None
  end.

(** The body of the loop for one file: the report of [st.error], or the
    frame appended to [all_data].  [None] when the labels cleaned give two
    columns 'name' or two columns 'score', a case the model leaves out, and
    in the cases of [apply_score] and [students_of]. *)
Definition clean_file (file : upload) : option (report + list student) :=
  match read_csv file with
  | None => Some (inl (ErrorInFile (file_name file) ReadError))
  | Some df =>
      let columns := map clean_label (labels df) in
      if negb (has_label "name" columns) || negb (has_label "score" columns)
      then Some (inl (MissingColumns (file_name file)))
      else if (1 <? occurrences "name" columns)%nat
              || (1 <? occurrences "score" columns)%nat
      then None
      else
        let kept := name_score_rows (position "name" columns)
                                    (position "score" columns) (rows df) in
        match apply_score (map snd kept) with
        | None => None
        | Some (inl e) => Some (inl (ErrorInFile (file_name file) e))
        | Some (inr scores) =>
            match students_of (map fst kept) scores with
            | None => None
            | Some l => Some (inr l)
            end
        end
  end.

(** The loop over the files, with the list [all_data] and the reports made
    so far. *)
Fixpoint load_loop (uploaded_files : list upload)
    (all_data : list (list student)) (reports : list report)
  : option (list (list student) * list report) :=
  match uploaded_files with
  | [] => Some (all_data, reports)
  | file :: rest =>
      match clean_file file with
      | None => None
      | Some (inl r) => load_loop rest all_data (reports ++ [r])
      | Some (inr df) => load_loop rest (all_data ++ [df]) reports
      end
  end.

(** The reports, and the rows of [pd.concat(all_data, ignore_index=True)],
    or of the empty frame when no file was kept. *)
Definition load_and_clean_data (uploaded_files : list upload)
  : option (list report * list student) :=
  match load_loop uploaded_files [] [] with
  | None => None
  | Some (all_data, reports) =>
      Some (reports,
            match all_data with
            | [] => []
            | _ :: _ => List.concat all_data
            end)
  end.

End Loader.

(** ** The script: the topics of the sidebar (lines 11-35) and the main
       part (lines 120-139) *)

Module App.

Import PyStr Categorizer BatchBuilder Rotator Composer Loader.
Local Open Scope string_scope.

Definition default_topics : list topic :=
  [{| Topic := "Python Data Types and Variables";
      Description := "Lists, Tuples, Sets, Dictionaries" |};
   {| Topic := "Control Flow in Python";
      Description := "Conditional statements (if-else), loops (for, while)" |};
   {| Topic := "Functions in Python";
      Description :=
        "Defining and calling functions, arguments, return values" |};
   {| Topic := "File Handling in Python";
      Description := "Reading and writing files (open(), read(), write())" |};
   {| Topic := "Exception Handling";
      Description := "try, except, finally" |};
   {| Topic := "Higher-Order Functions";
      Description := "map(), filter(), reduce()" |};
   {| Topic := "Object-Oriented Programming (OOP)";
      Description := "OOP concepts" |}].

(** The loop [for i in range(num_topics)] over what the two text inputs of
    each round hold: the title and the description. *)
Fixpoint collect_topics (entries : list (string * string))
    (custom_topics : list topic) : list topic :=
  match entries with
  | [] => custom_topics
  | (topic, desc) :: rest =>
      collect_topics rest
        (if topic =? "" then custom_topics
         else custom_topics ++ [{| Topic := topic; Description := desc |}])
  end.

(** [custom_topics] after line 35, from the entries of the sidebar (as many
    as [num_topics]) and the state of the check box. *)
Definition sidebar_topics (entries : list (string * string))
    (use_default : bool) : list topic :=
  let custom_topics := collect_topics entries [] in
  if ((length entries =? 0) || (length custom_topics =? 0))%nat
  then if use_default then default_topics else custom_topics
  else custom_topics.

(** What the page shows below the uploader: nothing, or the number of
    students processed and then the table and the archive, unless a call
    raises. *)
Inductive page : Type :=
| Nothing
| Processed (total : nat) (outcome : result (table * archive)).

(** Lines 122-139: from the rows loaded. *)
Definition process (data : list student) (custom_topics : list topic)
  : option page :=
  match data with
  | [] => Some Nothing
  | _ :: _ =>
      match create_balanced_batches (categorize_students data) with
      | None => None
      | Some batches =>
          Some (Processed (length data) (compose batches custom_topics 5))
      end
  end.

(** Lines 120-139. *)
Definition main (uploaded_files : list upload) (custom_topics : list topic)
  : option (list report * page) :=
  match uploaded_files with
  | [] => Some ([], Nothing)
  | _ :: _ =>
      match load_and_clean_data uploaded_files with
      | None => None
      | Some (reports, data) =>
          match process data custom_topics with
          | None => None
          | Some shown => Some (reports, shown)
          end
      end
  end.

End App.

(** * Vocabulary of the properties *)

Import PyStr Normalizer Categorizer BatchBuilder Rotator Composer.

(** Each pool holds rows of its own tier only. *)
Record tiered (p : pools) : Prop :=
  { tiered_high : Forall (fun r => has_category High r = true) (high p);
    tiered_medium : Forall (fun r => has_category Medium r = true) (medium p);
    tiered_low : Forall (fun r => has_category Low r = true) (low p) }.

(** The pools after one iteration. *)
Definition rest_of (p : pools) : pools :=
  {| high := skipn 2 (high p); medium := skipn 2 (medium p);
     low := skipn 1 (low p) |}.

(** The quota of a batch: at most 2 High, 2 Medium and 1 Low rows, and at
    least one row. *)
Definition within_quota (b : batch) : Prop :=
  length (select High b) <= 2 /\ length (select Medium b) <= 2 /\
  length (select Low b) <= 1 /\ b <> [].

(** The title under the cursor after [k] calls of [next]. *)
Definition title_at (topics : list topic) (k : nat) : string :=
  match nth_error topics (k mod length topics) with
  | Some t => Topic t
  | None => EmptyString
  end.

(** The assignment of the batch of index [i] in week [week], when it is the
    [k]-th assignment made (from 0). *)
Definition planned (topics : list topic) (week i k : nat) : assignment :=
  {| Week := week;
     Batch := batch_label i;
     AssignedTopic := title_at topics k |}.


(** A roster and a topic list for the examples: seven students, one of them
    above 100, the batches built from them, and the assignments of two weeks. *)
Definition example_topics : list topic :=
  [{| Topic := "A"; Description := "" |};
   {| Topic := "B"; Description := "" |}].

Definition example_students : list student :=
  [{| name := "s1"; score := 90 |}; {| name := "s2"; score := 75 |};
   {| name := "s3"; score := 70 |}; {| name := "s4"; score := 50 |};
   {| name := "s5"; score := 15 |}; {| name := "s6"; score := 101 |};
   {| name := "s7"; score := 95 |}].

Definition example_batches : list batch :=
  [[{| who := {| name := "s1"; score := 90 |}; category := Some High |};
    {| who := {| name := "s2"; score := 75 |}; category := Some High |};
    {| who := {| name := "s3"; score := 70 |}; category := Some Medium |};
    {| who := {| name := "s4"; score := 50 |}; category := Some Medium |};
    {| who := {| name := "s5"; score := 15 |}; category := Some Low |}];
   [{| who := {| name := "s7"; score := 95 |}; category := Some High |}]].

Definition example_assignments : list assignment :=
  [{| Week := 1; Batch := "Batch 1"; AssignedTopic := "A" |};
   {| Week := 1; Batch := "Batch 2"; AssignedTopic := "B" |};
   {| Week := 2; Batch := "Batch 1"; AssignedTopic := "A" |};
   {| Week := 2; Batch := "Batch 2"; AssignedTopic := "B" |}].

(** The number of batches that pools give: as many as the largest of half
    the High rows, half the Medium rows (both rounded up) and the Low
    rows. *)
Definition batch_count (p : pools) : nat :=
  Nat.max (Nat.max ((length (high p) + 1) / 2) ((length (medium p) + 1) / 2))
          (length (low p)).

(** The rows of the batch of index [k]: the High rows 2k and 2k+1, the
    Medium rows 2k and 2k+1 and the Low row k, those that exist. *)
Definition batch_at (p : pools) (k : nat) : batch :=
  firstn 2 (skipn (2 * k) (high p))
  ++ firstn 2 (skipn (2 * k) (medium p))
  ++ firstn 1 (skipn k (low p)).

(** A row that has a tier. *)
Definition has_tier (r : categorized_row) : bool :=
  match category r with Some _ => true | None => false end.

(** A student to whom [categorize_students] gives a tier. *)
Definition graded (s : student) : bool :=
  match categorize (score s) with Some _ => true | None => false end.

(** * Properties *)

(** ** The examples run *)

Example example_batches_built :
  create_balanced_batches (categorize_students example_students)
  = Some example_batches.
Proof. reflexivity. Qed.

Example example_assignments_made :
  assign_topics example_batches example_topics 2 = Ok example_assignments.
Proof. reflexivity. Qed.

(** The scenario of the design document: five students, two High, two Medium
    and one Low, make one batch; with the topics A and B and two weeks the
    batch gets A in week 1 and B in week 2. *)
Example scenario_one_batch :
  let students :=
    [{| name := "s1"; score := 90 |}; {| name := "s2"; score := 75 |};
     {| name := "s3"; score := 70 |}; {| name := "s4"; score := 50 |};
     {| name := "s5"; score := 15 |}] in
  exists b,
    create_balanced_batches (categorize_students students) = Some [b] /\
    map who b = students /\
    assign_topics [b] example_topics 2 =
      Ok [{| Week := 1; Batch := "Batch 1"; AssignedTopic := "A" |};
          {| Week := 2; Batch := "Batch 1"; AssignedTopic := "B" |}].
Proof. eexists. repeat split. Qed.

(** ** Categorizer *)

Section CategorizerFacts.

Local Open Scope Q_scope.

Lemma Qle_bool_false (x y : Q) : Qle_bool x y = false <-> y < x.
Proof.
  split; intro H.
  - apply Qnot_le_lt. intro Hle. apply Qle_bool_iff in Hle. congruence.
  - destruct (Qle_bool x y) eqn:E; [|reflexivity].
    apply Qle_bool_iff in E. lra.
Qed.

(** [categorize] as the chain of interval tests that [cut] runs on the bins
    of the script. *)
Lemma categorize_unfold (p : Q) :
  categorize p =
    if negb (Qle_bool p (-1)) && Qle_bool p 40 then Some Low
    else if negb (Qle_bool p 40) && Qle_bool p 70 then Some Medium
    else if negb (Qle_bool p 70) && Qle_bool p 100 then Some High
    else None.
Proof. reflexivity. Qed.

Ltac split_tests :=
  repeat match goal with
  | |- context [Qle_bool ?x ?y] =>
      let E := fresh "E" in
      destruct (Qle_bool x y) eqn:E;
      [apply Qle_bool_iff in E | apply Qle_bool_false in E]
  end; cbn [negb andb].

Lemma categorize_Low (p : Q) : categorize p = Some Low <-> -1 < p <= 40.
Proof.
  rewrite categorize_unfold. split_tests; split; intro H;
    solve [discriminate | reflexivity | lra].
Qed.

Lemma categorize_Medium (p : Q) : categorize p = Some Medium <-> 40 < p <= 70.
Proof.
  rewrite categorize_unfold. split_tests; split; intro H;
    solve [discriminate | reflexivity | lra].
Qed.

Lemma categorize_High (p : Q) : categorize p = Some High <-> 70 < p <= 100.
Proof.
  rewrite categorize_unfold. split_tests; split; intro H;
    solve [discriminate | reflexivity | lra].
Qed.

Lemma categorize_None (p : Q) : categorize p = None <-> p <= -1 \/ 100 < p.
Proof.
  rewrite categorize_unfold. split_tests; split; intro H;
    solve [discriminate | reflexivity | lra].
Qed.

Lemma categorize_in_range (p : Q) :
  (exists t, categorize p = Some t) <-> -1 < p <= 100.
Proof.
  split.
  - intros [[ | | ] H].
    + apply categorize_Low in H. lra.
    + apply categorize_Medium in H. lra.
    + apply categorize_High in H. lra.
  - intro H. destruct (categorize p) as [t|] eqn:E; [now exists t|].
    apply categorize_None in E. lra.
Qed.

(** C5, as the code has it.  A percentage in (-1, 100] gets exactly one tier:
    Low in (-1, 40], Medium in (40, 70], High in (70, 100]; the boundaries
    40 and 70 fall in the lower tier.  A percentage at or below -1, or above
    100, gets no tier (the missing value), and nothing is raised. *)
Theorem categorize_tiers :
  (forall p : Q,
      (categorize p = Some Low <-> -1 < p <= 40) /\
      (categorize p = Some Medium <-> 40 < p <= 70) /\
      (categorize p = Some High <-> 70 < p <= 100) /\
      (categorize p = None <-> p <= -1 \/ 100 < p)) /\
  categorize 40 = Some Low /\
  categorize 40.0001 = Some Medium /\
  categorize 70 = Some Medium /\
  categorize 70.0001 = Some High.
Proof.
  split; [|repeat split; reflexivity].
  intro p.
  exact (conj (categorize_Low p) (conj (categorize_Medium p)
          (conj (categorize_High p) (categorize_None p)))).
Qed.

(** C5 as stated fails: 101 is a percentage, and it gets no tier and no
    error; -5 is at most 40, and it is not Low. *)
Lemma categorize_out_of_range :
  categorize 101 = None /\ categorize (-5) = None.
Proof. split; reflexivity. Qed.

End CategorizerFacts.

(** ** Batch Builder *)

Section BatchBuilderFacts.

Lemma Forall_firstn {A : Type} (P : A -> Prop) (n : nat) (l : list A) :
  Forall P l -> Forall P (firstn n l).
Proof.
  intro H. revert n. induction H as [|x l Hx Hl IH]; intros [|n]; cbn; auto.
Qed.

Lemma Forall_skipn {A : Type} (P : A -> Prop) (n : nat) (l : list A) :
  Forall P l -> Forall P (skipn n l).
Proof.
  intro H. revert n. induction H as [|x l Hx Hl IH]; intros [|n]; cbn; auto.
Qed.

Lemma skipn_length_firstn {A : Type} (n : nat) (l : list A) :
  skipn (length (firstn n l)) l = skipn n l.
Proof.
  rewrite length_firstn. destruct (Nat.le_ge_cases n (length l)) as [H|H].
  - now rewrite Nat.min_l.
  - rewrite Nat.min_r by assumption.
    rewrite skipn_all. symmetry. now apply skipn_all2.
Qed.

Lemma has_category_unique (a b : tier) (r : categorized_row) :
  has_category a r = true -> has_category b r = true -> a = b.
Proof.
  unfold has_category. destruct (category r) as [t|]; [|discriminate].
  destruct t, a, b; cbn; congruence.
Qed.

Lemma select_same (label : tier) (l : list categorized_row) :
  Forall (fun r => has_category label r = true) l -> select label l = l.
Proof.
  induction 1 as [|r l Hr Hl IH]; cbn; [reflexivity|].
  rewrite Hr. f_equal. exact IH.
Qed.

Lemma select_other (a b : tier) (l : list categorized_row) :
  a <> b -> Forall (fun r => has_category a r = true) l -> select b l = [].
Proof.
  intros Hab. induction 1 as [|r l Hr Hl IH]; cbn; [reflexivity|].
  destruct (has_category b r) eqn:E; [|exact IH].
  exfalso. apply Hab. eapply has_category_unique; eassumption.
Qed.

Lemma select_Forall (label : tier) (l : list categorized_row) :
  Forall (fun r => has_category label r = true) (select label l).
Proof. apply Forall_forall. intros r Hr. now apply filter_In in Hr. Qed.

Lemma make_pools_tiered (data : list categorized_row) :
  tiered (make_pools data).
Proof. split; apply select_Forall. Qed.

Lemma select_take_batch (p : pools) :
  tiered p ->
  select High (take_batch p) = firstn 2 (high p) /\
  select Medium (take_batch p) = firstn 2 (medium p) /\
  select Low (take_batch p) = firstn 1 (low p).
Proof.
  intros [Hh Hm Hl]. unfold take_batch, select. rewrite !filter_app.
  pose proof (@Forall_firstn _ _ 2 _ Hh) as Fh.
  pose proof (@Forall_firstn _ _ 2 _ Hm) as Fm.
  pose proof (@Forall_firstn _ _ 1 _ Hl) as Fl.
  fold (select High (firstn 2 (high p))) (select High (firstn 2 (medium p)))
       (select High (firstn 1 (low p)))
       (select Medium (firstn 2 (high p))) (select Medium (firstn 2 (medium p)))
       (select Medium (firstn 1 (low p)))
       (select Low (firstn 2 (high p))) (select Low (firstn 2 (medium p)))
       (select Low (firstn 1 (low p))).
  rewrite (@select_same _ _ Fh), (@select_same _ _ Fm), (@select_same _ _ Fl).
  rewrite (@select_other High Medium _ ltac:(discriminate) Fh).
  rewrite (@select_other High Low _ ltac:(discriminate) Fh).
  rewrite (@select_other Medium High _ ltac:(discriminate) Fm).
  rewrite (@select_other Medium Low _ ltac:(discriminate) Fm).
  rewrite (@select_other Low High _ ltac:(discriminate) Fl).
  rewrite (@select_other Low Medium _ ltac:(discriminate) Fl).
  cbn [app]. now rewrite !app_nil_r.
Qed.

Lemma advance_take_batch (p : pools) :
  tiered p -> advance p (take_batch p) = rest_of p.
Proof.
  intro H. destruct (select_take_batch H) as (Eh & Em & El).
  unfold advance, rest_of. rewrite Eh, Em, El.
  now rewrite !skipn_length_firstn.
Qed.

Lemma rest_of_tiered (p : pools) : tiered p -> tiered (rest_of p).
Proof.
  intros [Hh Hm Hl]. split; unfold rest_of; cbn [high medium low];
    now apply Forall_skipn.
Qed.

Lemma any_left_remaining (p : pools) :
  any_left p = true <-> 0 < remaining p.
Proof.
  unfold any_left, remaining. rewrite !orb_true_iff, !Nat.ltb_lt. lia.
Qed.

Lemma any_left_false (p : pools) :
  any_left p = false <-> high p = [] /\ medium p = [] /\ low p = [].
Proof.
  unfold any_left. rewrite !orb_false_iff, !Nat.ltb_ge.
  destruct (high p), (medium p), (low p); cbn; split;
    intros ((H1 & H2) & H3) || intros (H1 & H2 & H3);
    repeat split; try reflexivity; try discriminate; lia.
Qed.

Lemma take_batch_length (p : pools) :
  length (take_batch p) =
    Nat.min 2 (length (high p)) + Nat.min 2 (length (medium p))
    + Nat.min 1 (length (low p)).
Proof. unfold take_batch. rewrite !length_app, !length_firstn. lia. Qed.

Lemma rest_of_remaining (p : pools) :
  remaining (rest_of p) + length (take_batch p) = remaining p.
Proof.
  rewrite take_batch_length. unfold remaining, rest_of. cbn [high medium low].
  rewrite !length_skipn. lia.
Qed.

Lemma take_batch_nonempty (p : pools) :
  any_left p = true -> take_batch p <> [].
Proof.
  intros H%any_left_remaining E. pose proof (take_batch_length p) as L.
  rewrite E in L. cbn [List.length] in L. unfold remaining in H. lia.
Qed.

Lemma interleave_perm {A : Type} (h1 h2 m1 m2 l1 l2 : list A) :
  Permutation ((h1 ++ m1 ++ l1) ++ h2 ++ m2 ++ l2)
              ((h1 ++ h2) ++ (m1 ++ m2) ++ l1 ++ l2).
Proof.
  rewrite <- !app_assoc. apply Permutation_app_head.
  transitivity (m1 ++ h2 ++ l1 ++ m2 ++ l2).
  - apply Permutation_app_head, Permutation_app_swap_app.
  - transitivity (h2 ++ m1 ++ l1 ++ m2 ++ l2).
    + apply Permutation_app_swap_app.
    + do 2 apply Permutation_app_head. apply Permutation_app_swap_app.
Qed.

Lemma take_batch_perm (p : pools) :
  Permutation
    (take_batch p ++ high (rest_of p) ++ medium (rest_of p) ++ low (rest_of p))
    (high p ++ medium p ++ low p).
Proof.
  unfold take_batch, rest_of. cbn [high medium low].
  rewrite interleave_perm. now rewrite !firstn_skipn.
Qed.

Lemma take_batch_quota (p : pools) :
  tiered p -> any_left p = true -> within_quota (take_batch p).
Proof.
  intros H Hp. destruct (select_take_batch H) as (Eh & Em & El).
  unfold within_quota. rewrite Eh, Em, El, !length_firstn.
  repeat split; try lia. now apply take_batch_nonempty.
Qed.

Lemma remaining_make_pools (data : list categorized_row) :
  remaining (make_pools data) <= length data.
Proof.
  unfold remaining, make_pools, select, has_category. cbn [high medium low].
  induction data as [|r data IH]; cbn [filter List.length]; [lia|].
  destruct (category r) as [[ | | ]|]; cbn [tier_eqb List.length]; lia.
Qed.

(** The whole run of the loop from pools that are tiered: the number [n] of
    iterations, the batches appended, and what holds at each iteration. *)
Lemma loop_trace (k : nat) :
  forall p : pools,
    tiered p -> remaining p <= k ->
    exists (n : nat) (bs : list batch),
      n <= remaining p /\
      (forall fuel acc,
          loop fuel p acc = if n <? fuel then Some (acc ++ bs) else None) /\
      any_left (iterate n p) = false /\
      (forall m, m < n ->
                 any_left (iterate m p) = true /\
                 nth_error bs m = Some (take_batch (iterate m p)) /\
                 remaining (iterate (S m) p) < remaining (iterate m p)) /\
      Permutation (List.concat bs) (high p ++ medium p ++ low p) /\
      Forall within_quota bs.
Proof.
  induction k as [|k IH]; intros p Hp Hk;
    destruct (any_left p) eqn:Hleft.
  - apply any_left_remaining in Hleft. lia.
  - exists 0, []. repeat split.
    + lia.
    + intros [|fuel] acc; cbn; [reflexivity|]. now rewrite Hleft, app_nil_r.
    + exact Hleft.
    + lia.
    + lia.
    + lia.
    + apply any_left_false in Hleft as (-> & -> & ->). constructor.
    + constructor.
  - pose proof (rest_of_remaining p) as Hrem.
    pose proof (take_batch_nonempty _ Hleft) as Hne.
    assert (Hlen : 0 < length (take_batch p))
      by (destruct (take_batch p); [congruence | cbn; lia]).
    destruct (IH (rest_of p) (rest_of_tiered Hp) ltac:(lia))
      as (n & bs & Hn & Hloop & Hend & Hsteps & Hperm & Hquota).
    exists (S n), (take_batch p :: bs). repeat split.
    + lia.
    + intros [|fuel] acc; [reflexivity|].
      cbn [loop]. rewrite Hleft, (advance_take_batch Hp).
      destruct (take_batch p) as [|r b] eqn:Hb; [congruence|]. cbn [empty].
      rewrite Hloop. change (S n <? S fuel) with (n <? fuel).
      now rewrite <- app_assoc.
    + cbn [iterate]. now rewrite (advance_take_batch Hp).
    + destruct m as [|m]; [exact Hleft|].
      cbn [iterate]. rewrite (advance_take_batch Hp).
      apply Hsteps. lia.
    + destruct m as [|m]; [reflexivity|].
      cbn [iterate nth_error]. rewrite (advance_take_batch Hp).
      apply Hsteps. lia.
    + destruct m as [|m].
      * cbn [iterate]. rewrite (advance_take_batch Hp). lia.
      * change (iterate (S (S m)) p)
          with (iterate (S m) (advance p (take_batch p))).
        change (iterate (S m) p) with (iterate m (advance p (take_batch p))).
        rewrite (advance_take_batch Hp). apply Hsteps. lia.
    + cbn [List.concat]. rewrite Hperm. apply take_batch_perm.
    + constructor; [now apply take_batch_quota | exact Hquota].
  - exists 0, []. repeat split.
    + lia.
    + intros [|fuel] acc; cbn; [reflexivity|]. now rewrite Hleft, app_nil_r.
    + exact Hleft.
    + lia.
    + lia.
    + lia.
    + apply any_left_false in Hleft as (-> & -> & ->). constructor.
    + constructor.
Qed.

(** The same for the pools that [create_balanced_batches] builds. *)
Lemma create_balanced_batches_trace (data : list categorized_row) :
  exists (n : nat) (bs : list batch),
    n <= length data /\
    (forall fuel,
        create_balanced_batches_fuel fuel data =
          if n <? fuel then Some bs else None) /\
    create_balanced_batches data = Some bs /\
    any_left (iterate n (make_pools data)) = false /\
    (forall m, m < n ->
               any_left (iterate m (make_pools data)) = true /\
               nth_error bs m
               = Some (take_batch (iterate m (make_pools data))) /\
               remaining (iterate (S m) (make_pools data))
                 < remaining (iterate m (make_pools data))) /\
    Permutation (List.concat bs)
                (select High data ++ select Medium data ++ select Low data) /\
    Forall within_quota bs.
Proof.
  pose proof (remaining_make_pools data) as Hdata.
  destruct (@loop_trace (remaining (make_pools data)) (make_pools data)
              (make_pools_tiered data) (le_n _))
    as (n & bs & Hn & Hloop & Hend & Hsteps & Hperm & Hquota).
  exists n, bs.
  assert (Hfuel : forall fuel,
             create_balanced_batches_fuel fuel data =
               if n <? fuel then Some bs else None)
    by (intro fuel; unfold create_balanced_batches_fuel; now rewrite Hloop).
  repeat split; try assumption; try (now apply Hsteps); try lia.
  unfold create_balanced_batches. rewrite Hfuel.
  destruct (Nat.ltb_spec n (S (length data))); [reflexivity | lia].
Qed.

End BatchBuilderFacts.

Lemma iterate_succ (m : nat) (p : pools) :
  iterate (S m) p = advance (iterate m p) (take_batch (iterate m p)).
Proof.
  revert p. induction m as [|m IH]; intro p; [reflexivity|].
  change (iterate (S (S m)) p) with (iterate (S m) (advance p (take_batch p))).
  now rewrite IH.
Qed.

(** C2.  The rows of the batches, taken together, are the rows of the three
    pools 'High', 'Medium' and 'Low' of the input, each as often as it is
    there: no row is dropped and none is repeated. *)
Theorem batches_partition_pools (data : list categorized_row) :
  exists bs : list batch,
    create_balanced_batches data = Some bs /\
    Permutation (List.concat bs)
                (select High data ++ select Medium data ++ select Low data).
Proof.
  destruct (create_balanced_batches_trace data)
    as (n & bs & _ & _ & Hrun & _ & _ & Hperm & _).
  exists bs. split; assumption.
Qed.

(** C3.  Every batch that is appended has at most 2 High rows, at most 2
    Medium rows and at most 1 Low row, and is not empty. *)
Theorem batches_within_quota (data : list categorized_row) :
  exists bs : list batch,
    create_balanced_batches data = Some bs /\
    Forall (fun b : batch =>
              length (select High b) <= 2 /\
              length (select Medium b) <= 2 /\
              length (select Low b) <= 1 /\
              b <> []) bs.
Proof.
  destruct (create_balanced_batches_trace data)
    as (n & bs & _ & _ & Hrun & _ & _ & _ & Hquota).
  exists bs. split; assumption.
Qed.

(** C6.  The loop ends: after some number [n] of iterations, at most one per
    row, all three pools are empty, and with fuel for more than [n]
    iterations the function returns (with less it has not finished).  At
    every iteration before that some pool is not empty, the batch taken is
    not empty, and fewer rows remain afterwards. *)
Theorem create_balanced_batches_terminates (data : list categorized_row) :
  exists (n : nat) (bs : list batch),
    n <= length data /\
    (forall fuel,
        create_balanced_batches_fuel fuel data =
          if n <? fuel then Some bs else None) /\
    create_balanced_batches data = Some bs /\
    (let final := iterate n (make_pools data) in
     high final = [] /\ medium final = [] /\ low final = []) /\
    (forall m,
        m < n ->
        let p := iterate m (make_pools data) in
        any_left p = true /\
        take_batch p <> [] /\
        remaining (advance p (take_batch p)) < remaining p).
Proof.
  destruct (create_balanced_batches_trace data)
    as (n & bs & Hn & Hfuel & Hrun & Hend & Hsteps & _ & _).
  exists n, bs. repeat split; try assumption.
  - now apply any_left_false in Hend.
  - now apply any_left_false in Hend.
  - now apply any_left_false in Hend.
  - now apply Hsteps.
  - apply take_batch_nonempty. now apply Hsteps.
  - rewrite <- iterate_succ. now apply Hsteps.
Qed.

(** ** Topic Rotator *)

Section RotatorFacts.

Variable topics : list topic.
Hypothesis some_topic : topics <> [].

Let T := length topics.

Lemma T_positive : 0 < T.
Proof. subst T. destruct topics; [congruence | cbn; lia]. Qed.

Lemma cursor_step (k : nat) :
  (if S (k mod T) <? T then S (k mod T) else 0) = S k mod T.
Proof.
  pose proof T_positive as HT.
  pose proof (Nat.mod_upper_bound k T ltac:(lia)) as Hk.
  pose proof (Nat.div_mod_eq k T) as Ek.
  destruct (Nat.ltb_spec (S (k mod T)) T) as [Hlt|Hge].
  - apply (Nat.mod_unique _ _ (k / T)); lia.
  - apply (Nat.mod_unique _ _ (S (k / T))); lia.
Qed.

Lemma next_at (k : nat) :
  exists t,
    nth_error topics (k mod T) = Some t /\
    Topic t = title_at topics k /\
    next {| items := topics; cursor := k mod T |} =
      Ok (t, {| items := topics; cursor := S k mod T |}).
Proof.
  pose proof T_positive as HT.
  pose proof (Nat.mod_upper_bound k T ltac:(lia)) as Hk.
  destruct (nth_error topics (k mod T)) as [t|] eqn:E.
  - exists t. repeat split.
    + unfold title_at. fold T. now rewrite E.
    + unfold next. cbn [items cursor]. rewrite E. fold T.
      now rewrite cursor_step.
  - apply nth_error_None in E. fold T in E. lia.
Qed.

Lemma assign_week_run {A : Type} (batches : list A) :
  forall (week i k : nat) (acc : list assignment),
    assign_week week i batches {| items := topics; cursor := k mod T |} acc =
      Ok ({| items := topics; cursor := (k + length batches) mod T |},
          acc ++ map (fun j => planned topics week (i + j) (k + j))
                     (seq 0 (length batches))).
Proof.
  induction batches as [|b batches IH]; intros week i k acc.
  - cbn. now rewrite Nat.add_0_r, app_nil_r.
  - destruct (next_at k) as (t & _ & Ht & Hnext).
    cbn [assign_week]. rewrite Hnext. cbn [bind]. rewrite IH.
    cbn [List.length]. rewrite Nat.add_succ_r. cbn [Nat.add]. f_equal. f_equal.
    rewrite <- app_assoc. f_equal. cbn [seq map app].
    rewrite !Nat.add_0_r, Ht. fold (planned topics week i k). f_equal.
    rewrite <- seq_shift, map_map. apply map_ext. intro j.
    now rewrite !Nat.add_succ_r.
Qed.

Lemma flat_map_ext_seq {B : Type} (f g : nat -> list B) (n : nat) :
  forall s, (forall w, s <= w -> f w = g w) ->
            flat_map f (seq s n) = flat_map g (seq s n).
Proof.
  induction n as [|n IH]; intros s H; [reflexivity|].
  cbn [seq flat_map]. rewrite (H s (le_n s)). f_equal.
  apply IH. intros w Hw. apply H. lia.
Qed.

Lemma assign_weeks_run {A : Type} (batches : list A) (n : nat) :
  forall (s k : nat) (acc : list assignment),
    assign_weeks (seq s n) batches
      {| items := topics; cursor := k mod T |} acc =
      Ok ({| items := topics; cursor := (k + n * length batches) mod T |},
          acc ++ flat_map
                   (fun w => map (fun j => planned topics w j
                                             (k + (w - s) * length batches + j))
                                 (seq 0 (length batches)))
                   (seq s n)).
Proof.
  induction n as [|n IH]; intros s k acc.
  - cbn. now rewrite Nat.add_0_r, app_nil_r.
  - cbn [seq assign_weeks]. rewrite assign_week_run. cbn [bind]. rewrite IH.
    f_equal. f_equal.
    + do 2 f_equal. cbn [Nat.mul]. lia.
    + rewrite <- app_assoc. f_equal. cbn [flat_map]. f_equal.
      * apply map_ext. intro j. f_equal. rewrite Nat.sub_diag. cbn. lia.
      * apply flat_map_ext_seq. intros w Hw. apply map_ext. intro j.
        f_equal. replace (w - s) with (S (w - S s)) by lia.
        cbn [Nat.mul]. lia.
Qed.

(** The list that [assign_topics] returns: week after week, one assignment
    per batch, the [k]-th of the whole run with the title at [k mod T]. *)
Lemma assign_topics_run {A : Type} (batches : list A) (weeks : nat) :
  assign_topics batches topics weeks =
    Ok (flat_map
          (fun w => map (fun j => planned topics w j
                                    ((w - 1) * length batches + j))
                        (seq 0 (length batches)))
          (seq 1 weeks)).
Proof.
  unfold assign_topics, itertools_cycle.
  pose proof (assign_weeks_run batches weeks 1 0 []) as H.
  rewrite Nat.Div0.mod_0_l in H. rewrite H. reflexivity.
Qed.

End RotatorFacts.

Lemma nth_error_blocks {X : Type} (g : nat -> nat -> X) (B n : nat) :
  forall s k,
    k < n * B ->
    nth_error (flat_map (fun w => map (g w) (seq 0 B)) (seq s n)) k =
      Some (g (s + k / B) (k mod B)).
Proof.
  induction n as [|n IH]; intros s k Hk; [lia|].
  assert (HB : B <> 0) by lia.
  cbn [seq flat_map].
  destruct (Nat.lt_ge_cases k B) as [Hlt|Hge].
  - rewrite nth_error_app1 by now rewrite length_map, length_seq.
    rewrite nth_error_map, nth_error_seq.
    destruct (Nat.ltb_spec k B); [|lia]. cbn [option_map Nat.add].
    now rewrite Nat.div_small, Nat.mod_small, Nat.add_0_r.
  - rewrite nth_error_app2 by now rewrite length_map, length_seq.
    rewrite length_map, length_seq, IH by lia.
    replace k with ((k - B) + 1 * B) at 3 4 by lia.
    rewrite Nat.div_add, Nat.Div0.mod_add by assumption.
    do 2 f_equal. lia.
Qed.

(** C1.  With at least one topic, [assign_topics] returns B * W assignments;
    the [k]-th (from 0) is the one of week [1 + k / B] and of the batch of
    index [k mod B], and its topic is the title at index [k mod T] of the
    topic list: the cursor runs on from one week to the next. *)
Theorem assign_topics_rotation {A : Type} (batches : list A)
    (topics : list topic) (weeks : nat) :
  1 <= length topics ->
  exists l : list assignment,
    assign_topics batches topics weeks = Ok l /\
    length l = length batches * weeks /\
    forall k,
      k < length batches * weeks ->
      exists t,
        nth_error topics (k mod length topics) = Some t /\
        nth_error l k =
          Some {| Week := 1 + k / length batches;
                  Batch := batch_label (k mod length batches);
                  AssignedTopic := Topic t |}.
Proof.
  intro HT.
  assert (Hne : topics <> [])
    by (destruct topics; [cbn in HT; lia | congruence]).
  eexists. split; [apply (assign_topics_run Hne)|]. split.
  - rewrite (@flat_map_constant_length _ _ (length batches)).
    + rewrite length_seq. apply Nat.mul_comm.
    + intros w _. now rewrite length_map, length_seq.
  - intros k Hk. destruct (next_at Hne k) as (t & Ht & Htitle & _).
    exists t. split; [exact Ht|].
    rewrite (nth_error_blocks
               (fun w j => planned topics w j ((w - 1) * length batches + j)))
      by lia.
    unfold planned. do 2 f_equal. rewrite Htitle. f_equal.
    pose proof (Nat.div_mod_eq k (length batches)). nia.
Qed.

Lemma assign_topics_rotation_example :
  exists l : list assignment,
    assign_topics [tt; tt; tt]
      [{| Topic := "A"; Description := "" |};
       {| Topic := "B"; Description := "" |}] 2 = Ok l /\
    length l = 3 * 2 /\
    forall k,
      k < 3 * 2 ->
      exists t,
        nth_error [{| Topic := "A"; Description := "" |};
                   {| Topic := "B"; Description := "" |}] (k mod 2) = Some t /\
        nth_error l k =
          Some {| Week := 1 + k / 3;
                  Batch := batch_label (k mod 3);
                  AssignedTopic := Topic t |}.
Proof.
  apply (@assign_topics_rotation unit [tt; tt; tt]
           [{| Topic := "A"; Description := "" |};
            {| Topic := "B"; Description := "" |}] 2).
  cbn. lia.
Defined.

Lemma assign_weeks_no_batch (weeks : list nat) (c : cycle)
    (acc : list assignment) :
  assign_weeks weeks (@nil batch) c acc = Ok (c, acc).
Proof. induction weeks as [|w weeks IH]; cbn; [reflexivity | exact IH]. Qed.

(** What [assign_topics] does with no topic. *)
Lemma assign_topics_no_topic (batches : list batch) (weeks : nat) :
  assign_topics batches [] weeks =
    match batches, weeks with
    | _ :: _, S _ => Raise StopIteration
    | _, _ => Ok []
    end.
Proof.
  destruct batches as [|b batches].
  - unfold assign_topics. now rewrite assign_weeks_no_batch.
  - destruct weeks as [|weeks]; reflexivity.
Qed.

(** C7, as the code has it.  With no topic, [assign_topics] raises
    StopIteration when there is a batch and a week, and returns the empty
    list otherwise; the run ([compose]) raises in every case, so neither the
    table nor the archive is produced: StopIteration from the cycle,
    ValueError from [pd.concat] when there is no batch (as with any topic
    list), KeyError for the column 'Week' when there is a batch and no
    week. *)
Theorem no_topic_run (batches : list batch) (weeks : nat) :
  assign_topics batches [] weeks =
    match batches, weeks with
    | _ :: _, S _ => Raise StopIteration
    | _, _ => Ok []
    end /\
  compose batches [] weeks =
    Raise match batches, weeks with
          | [], _ => ValueError
          | _ :: _, O => KeyError
          | _ :: _, S _ => StopIteration
          end /\
  (forall topics, compose [] topics weeks = Raise ValueError).
Proof.
  split; [apply assign_topics_no_topic|]. split.
  - unfold compose. rewrite assign_topics_no_topic.
    destruct batches as [|b batches]; destruct weeks as [|weeks]; reflexivity.
  - intro topics. unfold compose, assign_topics.
    now rewrite assign_weeks_no_batch.
Qed.

(** C7 as stated fails: with no topic and no batch the Rotator returns, and
    the run then stops on the batches, as it does when topics are given. *)
Lemma no_topic_no_batch :
  assign_topics (@nil batch) [] 5 = Ok [] /\
  compose [] [] 5 = Raise ValueError /\
  compose [] [{| Topic := "A"; Description := "" |}] 5 = Raise ValueError.
Proof. repeat split; reflexivity. Qed.

(** ** Formatted integers and labels *)

Section Labels.

Local Open Scope string_scope.

Lemma str_inj (n m : nat) : str n = str m -> n = m.
Proof.
  unfold str. intro H. apply Unsigned.to_uint_inj.
  apply (f_equal NilEmpty.uint_of_string) in H.
  rewrite !NilEmpty.usu in H. congruence.
Qed.

Lemma length_append (s t : string) :
  String.length (s ++ t) = String.length s + String.length t.
Proof. induction s as [|c s IH]; cbn; [reflexivity | now rewrite IH]. Qed.

Lemma append_cancel_r (t : string) :
  forall s1 s2 : string, s1 ++ t = s2 ++ t -> s1 = s2.
Proof.
  induction s1 as [|c s1 IH]; intros [|c' s2] H.
  - reflexivity.
  - apply (f_equal String.length) in H. cbn in H.
    rewrite length_append in H. lia.
  - apply (f_equal String.length) in H. cbn in H.
    rewrite length_append in H. lia.
  - cbn in H. injection H as -> H. f_equal. now apply IH.
Qed.

Lemma batch_label_inj (i j : nat) : batch_label i = batch_label j -> i = j.
Proof.
  unfold batch_label. cbn. intro H. injection H as H.
  apply str_inj in H. lia.
Qed.

Lemma week_label_inj (v w : nat) : week_label v = week_label w -> v = w.
Proof.
  unfold week_label. cbn. intro H. injection H as H.
  apply append_cancel_r in H. now apply str_inj.
Qed.

End Labels.

(** ** Output Composer *)

Lemma unique_series (v : nat -> string) (n : nat) :
  forall s,
    unique (map fst (map (fun j => (batch_label j, v j)) (seq s n))) = true.
Proof.
  induction n as [|n IH]; intro s; [reflexivity|].
  cbn [seq map fst unique]. rewrite IH, andb_true_r.
  apply negb_true_iff.
  destruct (existsb _ _) eqn:E; [|reflexivity].
  apply existsb_exists in E as (x & Hx & Heq).
  apply String.eqb_eq in Heq. subst x.
  rewrite map_map in Hx. apply in_map_iff in Hx as (j & Hj & Hin).
  cbn [fst] in Hj. apply batch_label_inj in Hj. apply in_seq in Hin. lia.
Qed.


Lemma rows_names (bs : list batch) :
  forall s,
    map fst (List.concat (map (fun '(i, b) => batch_frame i b)
                              (combine (seq s (length bs)) bs)))
    = map (fun r => name (who r)) (List.concat bs).
Proof.
  induction bs as [|b bs IH]; intro s; [reflexivity|].
  cbn [List.length seq combine map List.concat].
  rewrite !map_app, IH. f_equal.
  unfold batch_frame. rewrite map_map. reflexivity.
Qed.



Lemma set_column_fresh (label : string) (column : list (option string))
    (columns : list (string * list (option string))) :
  (forall lc, In lc columns -> fst lc <> label) ->
  set_column label column columns = columns ++ [(label, column)].
Proof.
  induction columns as [|[l c] columns IH]; intro H; [reflexivity|].
  cbn [set_column app].
  destruct (String.eqb_spec l label) as [E|E].
  - exfalso. apply (H (l, c)); [now left | exact E].
  - f_equal. apply IH. intros lc Hlc. apply H. now right.
Qed.

Lemma add_weeks_run (assignments : list assignment) (n : nat) :
  forall (s : nat) (t : table),
    (forall w, s <= w < s + n ->
               unique (map fst (week_topics w assignments)) = true) ->
    (forall lc w, In lc (added t) -> s <= w -> fst lc <> week_label w) ->
    add_weeks (seq s n) assignments t =
      Ok {| Name := Name t;
            BatchColumn := BatchColumn t;
            added :=
              added t ++
              map (fun w =>
                     (week_label w,
                      map (fun c => lookup c (week_topics w assignments))
                          (BatchColumn t)))
                  (seq s n) |}.
Proof.
  induction n as [|n IH]; intros s t Huniq Hfresh.
  - cbn. rewrite app_nil_r. now destruct t.
  - cbn [seq add_weeks]. unfold series_map.
    rewrite Huniq by lia. cbn [bind]. rewrite IH.
    + cbn [Name BatchColumn added map].
      rewrite set_column_fresh by (intros lc Hlc; apply (Hfresh lc s Hlc); lia).
      now rewrite <- app_assoc.
    + intros w Hw. apply Huniq. lia.
    + cbn [added]. intros lc w Hlc Hw.
      rewrite set_column_fresh in Hlc
        by (intros lc' Hlc'; apply (Hfresh lc' s Hlc'); lia).
      apply in_app_or in Hlc as [Hlc|[<-|[]]].
      * apply Hfresh; [exact Hlc | lia].
      * cbn [fst]. intro E. apply week_label_inj in E. lia.
Qed.


Lemma In_list_max (x : nat) (l : list nat) : In x l -> x <= list_max l.
Proof.
  intro H. pose proof (proj1 (list_max_le l (list_max l)) (le_n _)) as F.
  rewrite Forall_forall in F. now apply F.
Qed.

Section ComposerFacts.

Variable topics : list topic.
Variable batches : list batch.

Let B := length batches.

(** The assignments of week [w], as [assign_topics] lists them. *)
Let block (w : nat) : list assignment :=
  map (fun j => planned topics w j ((w - 1) * B + j)) (seq 0 B).

(** The index of [week_topics] for week [w]: one entry per batch. *)
Let series (w : nat) : list (string * string) :=
  map (fun j => (batch_label j, title_at topics ((w - 1) * B + j))) (seq 0 B).

Lemma filter_week_block (w w' : nat) :
  filter (fun a => Week a =? w) (block w') = if w' =? w then block w' else [].
Proof.
  unfold block. induction (seq 0 B) as [|j l IH]; cbn [map filter].
  - now destruct (w' =? w).
  - rewrite IH. cbn [planned Week]. now destruct (w' =? w).
Qed.

Lemma week_topics_plan (w n : nat) :
  forall s,
    week_topics w (flat_map block (seq s n)) =
      if (s <=? w) && (w <? s + n) then series w else [].
Proof.
  unfold week_topics.
  induction n as [|n IH]; intro s; cbn [seq flat_map].
  - cbn [filter map].
    destruct (Nat.leb_spec s w), (Nat.ltb_spec w (s + 0));
      cbn [andb]; try reflexivity; lia.
  - rewrite filter_app, map_app, IH, filter_week_block.
    destruct (Nat.eqb_spec s w) as [->|Hsw].
    + destruct (Nat.leb_spec (S w) w); [lia|].
      destruct (Nat.leb_spec w w); [|lia].
      destruct (Nat.ltb_spec w (w + S n)); [|lia].
      cbn [andb]. rewrite app_nil_r. unfold block, series.
      rewrite map_map. reflexivity.
    + cbn [map app].
      destruct (Nat.leb_spec (S s) w), (Nat.leb_spec s w),
        (Nat.ltb_spec w (S s + n)), (Nat.ltb_spec w (s + S n));
        cbn [andb]; try reflexivity; lia.
Qed.

Lemma max_week_plan (weeks : nat) :
  0 < B -> 0 < weeks ->
  max_week (flat_map block (seq 1 weeks)) = Ok weeks.
Proof.
  intros HB HW.
  assert (Hin : In (planned topics weeks 0 ((weeks - 1) * B + 0))
                   (flat_map block (seq 1 weeks))).
  { apply in_flat_map. exists weeks. split; [apply in_seq; lia|].
    unfold block. apply in_map_iff. exists 0. split; [reflexivity|].
    apply in_seq. lia. }
  unfold max_week.
  destruct (flat_map block (seq 1 weeks)) as [|a plan] eqn:E; [contradiction|].
  rewrite <- E in *. f_equal. apply Nat.le_antisymm.
  - apply list_max_le, Forall_forall. intros x Hx.
    apply in_map_iff in Hx as (a' & <- & Ha').
    apply in_flat_map in Ha' as (w & Hw & Ha').
    unfold block in Ha'. apply in_map_iff in Ha' as (j & <- & _).
    cbn [planned Week]. apply in_seq in Hw. lia.
  - apply In_list_max.
    change weeks
      with (Week (planned topics weeks 0 ((weeks - 1) * B + 0))) at 1.
    now apply in_map.
Qed.

End ComposerFacts.

Lemma pd_concat_enumerate {X : Type} (f : nat * batch -> list X)
    (batches : list batch) :
  batches <> [] ->
  pd_concat (map f (enumerate batches)) =
    Ok (List.concat (map f (enumerate batches))).
Proof. destruct batches; [congruence | reflexivity]. Qed.



Lemma add_weeks_columns (assignments : list assignment) (weeks : list nat) :
  forall t t' : table,
    add_weeks weeks assignments t = Ok t' ->
    Name t' = Name t /\ BatchColumn t' = BatchColumn t.
Proof.
  induction weeks as [|w weeks IH]; intros t t' H.
  - cbn in H. injection H as <-. now split.
  - cbn [add_weeks] in H.
    destruct (series_map (BatchColumn t) (week_topics w assignments));
      [|discriminate].
    cbn [bind] in H. apply IH in H. exact H.
Qed.

Lemma prepare_output_names (batches : list batch)
    (assignments : list assignment) (t : table) :
  prepare_output batches assignments = Ok t ->
  Name t = map (fun r => name (who r)) (List.concat batches).
Proof.
  unfold prepare_output. intro H.
  destruct (pd_concat _) as [rows|] eqn:Erows; [|discriminate].
  cbn [bind] in H.
  destruct (max_week assignments) as [last_week|]; [|discriminate].
  cbn [bind] in H. apply add_weeks_columns in H as [-> _]. cbn [Name].
  destruct batches as [|b batches]; [discriminate|].
  injection Erows as <-. apply (rows_names (b :: batches) 0).
Qed.

Lemma export_rows_from (batches : list batch) :
  forall s,
    map snd
      (map (fun '(i, b) => (("Batch_" ++ str (i + 1) ++ ".csv")%string, b))
           (combine (seq s (length batches)) batches))
    = batches.
Proof.
  induction batches as [|b batches IH]; intro s; [reflexivity|].
  cbn [List.length seq combine map snd]. now rewrite IH.
Qed.

Lemma export_rows (batches : list batch) :
  map snd (export_batches_individually batches) = batches.
Proof. apply export_rows_from. Qed.

Lemma in_batches_tier (data : list student) (bs : list batch)
    (r : categorized_row) :
  Permutation (List.concat bs)
    (select High (categorize_students data)
     ++ select Medium (categorize_students data)
     ++ select Low (categorize_students data)) ->
  In r (List.concat bs) ->
  (-1 < score (who r) <= 100)%Q /\ category r <> None.
Proof.
  intros Hperm Hr. apply (Permutation_in _ Hperm) in Hr.
  assert (H : In r (categorize_students data) /\ category r <> None).
  { rewrite !in_app_iff in Hr. unfold select in Hr.
    rewrite !filter_In in Hr. unfold has_category in Hr.
    destruct (category r); [|intuition discriminate].
    split; [tauto | discriminate]. }
  destruct H as [Hin Hcat]. split; [|exact Hcat].
  unfold categorize_students in Hin.
  apply in_map_iff in Hin as (s & <- & _). cbn [who category] in *.
  apply categorize_in_range.
  destruct (categorize (score s)) as [t|]; [now exists t | congruence].
Qed.

(** C10.  A student whose percentage is not in (-1, 100] gets no tier, and
    the row is in no batch: every row of every batch has a tier and a
    percentage in (-1, 100].  The functions have no error to raise for it.
    The archive holds the rows of the batches and nothing else, and so does
    the column 'Name' of the table, whenever the run returns them. *)
Theorem out_of_range_excluded (data : list student) (s : student) :
  In s data ->
  ~ (-1 < score s <= 100)%Q ->
  categorize (score s) = None /\
  exists bs : list batch,
    create_balanced_batches (categorize_students data) = Some bs /\
    (forall b r, In b bs -> In r b ->
                 (-1 < score (who r) <= 100)%Q /\ category r <> None) /\
    ~ In {| who := s; category := categorize (score s) |} (List.concat bs) /\
    map snd (export_batches_individually bs) = bs /\
    forall topics weeks t a,
      compose bs topics weeks = Ok (t, a) ->
      Name t = map (fun r => name (who r)) (List.concat bs) /\
      a = export_batches_individually bs.
Proof.
  intros Hin Hout.
  assert (Hnone : categorize (score s) = None).
  { destruct (categorize (score s)) as [t|] eqn:E; [|reflexivity].
    exfalso. apply Hout. apply categorize_in_range. now exists t. }
  split; [exact Hnone|].
  destruct (create_balanced_batches_trace (categorize_students data))
    as (n & bs & _ & _ & Hrun & _ & _ & Hperm & _).
  exists bs. split; [exact Hrun|]. split; [|split; [|split]].
  - intros b r Hb Hr. apply (in_batches_tier data bs r Hperm).
    apply in_concat. now exists b.
  - intro H. apply (in_batches_tier data bs _ Hperm) in H as [_ H].
    cbn [category] in H. contradiction.
  - apply export_rows.
  - intros topics weeks t a H. unfold compose in H.
    destruct (assign_topics bs topics weeks) as [asg|]; [|discriminate].
    cbn [bind] in H.
    destruct (prepare_output bs asg) as [t'|] eqn:E; [|discriminate].
    cbn [bind] in H. injection H as <- <-.
    split; [now apply prepare_output_names with asg | reflexivity].
Qed.

Lemma out_of_range_excluded_example :
  categorize (score {| name := "s6"; score := 101 |}) = None /\
  exists bs : list batch,
    create_balanced_batches (categorize_students example_students) = Some bs /\
    (forall b r, In b bs -> In r b ->
                 (-1 < score (who r) <= 100)%Q /\ category r <> None) /\
    ~ In {| who := {| name := "s6"; score := 101 |};
            category := categorize (score {| name := "s6"; score := 101 |}) |}
         (List.concat bs) /\
    map snd (export_batches_individually bs) = bs /\
    forall topics weeks t a,
      compose bs topics weeks = Ok (t, a) ->
      Name t = map (fun r => name (who r)) (List.concat bs) /\
      a = export_batches_individually bs.
Proof.
  apply (@out_of_range_excluded example_students
           {| name := "s6"; score := 101 |}).
  - cbn. tauto.
  - cbn. lra.
Defined.

(** ** Score Normalizer *)

Section NormalizerFacts.

Local Open Scope string_scope.





(** *** [split] *)





(** *** [strip] *)

Lemma lstrip_spaces (w s : string) :
  forallb_string isspace w = true -> lstrip (w ++ s) = lstrip s.
Proof.
  induction w as [|c w IH]; cbn; [reflexivity|].
  rewrite andb_true_iff. intros [-> Hw]. now apply IH.
Qed.

Lemma rstrip_only_spaces (w : string) :
  forallb_string isspace w = true -> rstrip w = "".
Proof.
  induction w as [|c w IH]; cbn; [reflexivity|].
  rewrite andb_true_iff. intros [-> Hw]. now rewrite (IH Hw).
Qed.

Lemma rstrip_spaces (s w : string) :
  forallb_string isspace w = true -> rstrip (s ++ w) = rstrip s.
Proof.
  intro Hw. induction s as [|c s IH]; cbn.
  - now apply rstrip_only_spaces.
  - now rewrite IH.
Qed.

Lemma rstrip_no_space (s : string) :
  forallb_string (fun c => negb (isspace c)) s = true -> rstrip s = s.
Proof.
  induction s as [|c s IH]; cbn; [reflexivity|].
  rewrite andb_true_iff, negb_true_iff. intros [Hc Hs].
  rewrite (IH Hs), Hc. now destruct s.
Qed.

(** Spaces around a text that has none are all that [strip] removes. *)
Lemma strip_padded (w1 s w2 : string) :
  forallb_string isspace w1 = true ->
  forallb_string isspace w2 = true ->
  forallb_string (fun c => negb (isspace c)) s = true ->
  s <> "" ->
  strip (w1 ++ s ++ w2) = s.
Proof.
  intros H1 H2 Hs Hne. unfold strip. rewrite (lstrip_spaces _ _ H1).
  destruct s as [|c s]; [congruence|].
  cbn in Hs. apply andb_true_iff in Hs as [Hc Hs].
  apply negb_true_iff in Hc.
  cbn [append lstrip]. rewrite Hc.
  change (String c (s ++ w2)) with (String c s ++ w2).
  rewrite (rstrip_spaces _ _ H2). apply rstrip_no_space.
  cbn. now rewrite Hc, Hs.
Qed.

(** *** The literals that [py_eval] reads *)






End NormalizerFacts.

Section NormalizerClaims.

Local Open Scope string_scope.







End NormalizerClaims.

(** * Further properties of the code *)

(** ** Batch Builder: the batches in closed form *)

Section BatchBuilderClosedForm.

Lemma batch_count_step (p : pools) :
  any_left p = true -> batch_count p = S (batch_count (rest_of p)).
Proof.
  intros H%any_left_remaining. unfold remaining in H.
  unfold batch_count, rest_of. cbn [high medium low].
  rewrite !length_skipn.
  set (h := length (high p)) in *. set (m := length (medium p)) in *.
  set (l := length (low p)) in *.
  pose proof (Nat.div_mod_eq (h + 1) 2).
  pose proof (Nat.div_mod_eq (m + 1) 2).
  pose proof (Nat.div_mod_eq (h - 2 + 1) 2).
  pose proof (Nat.div_mod_eq (m - 2 + 1) 2).
  pose proof (Nat.mod_upper_bound (h + 1) 2).
  pose proof (Nat.mod_upper_bound (m + 1) 2).
  pose proof (Nat.mod_upper_bound (h - 2 + 1) 2).
  pose proof (Nat.mod_upper_bound (m - 2 + 1) 2).
  lia.
Qed.

Lemma batch_count_zero (p : pools) :
  any_left p = false -> batch_count p = 0.
Proof.
  intros (Hh & Hm & Hl)%any_left_false. unfold batch_count.
  now rewrite Hh, Hm, Hl.
Qed.

Lemma batch_at_rest (p : pools) (k : nat) :
  batch_at (rest_of p) k = batch_at p (S k).
Proof.
  unfold batch_at, rest_of. cbn [high medium low].
  rewrite !skipn_skipn.
  replace (2 * k + 2) with (2 * S k) by lia.
  now replace (k + 1) with (S k) by lia.
Qed.

Lemma batch_at_first (p : pools) : batch_at p 0 = take_batch p.
Proof. reflexivity. Qed.

Lemma loop_closed_form (fuel : nat) :
  forall (p : pools) (acc : list batch),
    tiered p ->
    loop fuel p acc =
      if batch_count p <? fuel
      then Some (acc ++ map (batch_at p) (seq 0 (batch_count p)))
      else None.
Proof.
  induction fuel as [|fuel IH]; intros p acc Hp; [reflexivity|].
  cbn [loop]. destruct (any_left p) eqn:Hleft.
  - rewrite (advance_take_batch Hp), (batch_count_step _ Hleft).
    pose proof (take_batch_nonempty _ Hleft) as Hne.
    destruct (take_batch p) as [|r b] eqn:Hb; [congruence|]. cbn [empty].
    rewrite (IH _ _ (rest_of_tiered Hp)).
    change (S (batch_count (rest_of p)) <? S fuel)
      with (batch_count (rest_of p) <? fuel).
    destruct (batch_count (rest_of p) <? fuel); [|reflexivity].
    rewrite <- app_assoc. cbn [seq map app].
    rewrite batch_at_first, Hb. do 3 f_equal.
    rewrite <- seq_shift, map_map. apply map_ext. intro k.
    apply batch_at_rest.
  - rewrite (batch_count_zero _ Hleft). cbn. now rewrite app_nil_r.
Qed.

Lemma batch_count_le (data : list categorized_row) :
  batch_count (make_pools data) <= length data.
Proof.
  pose proof (remaining_make_pools data) as H. unfold remaining in H.
  unfold batch_count.
  set (h := length (high (make_pools data))) in *.
  set (m := length (medium (make_pools data))) in *.
  pose proof (Nat.div_mod_eq (h + 1) 2).
  pose proof (Nat.div_mod_eq (m + 1) 2).
  pose proof (Nat.mod_upper_bound (h + 1) 2).
  pose proof (Nat.mod_upper_bound (m + 1) 2).
  lia.
Qed.

Lemma create_balanced_batches_map (data : list categorized_row) :
  create_balanced_batches data =
    Some (map (batch_at (make_pools data))
              (seq 0 (batch_count (make_pools data)))).
Proof.
  unfold create_balanced_batches, create_balanced_batches_fuel.
  rewrite (loop_closed_form _ [] (make_pools_tiered data)).
  pose proof (batch_count_le data).
  destruct (Nat.ltb_spec (batch_count (make_pools data)) (S (length data)));
    [reflexivity | lia].
Qed.

End BatchBuilderClosedForm.

Lemma firstn_add {A : Type} (a b : nat) (l : list A) :
  firstn (a + b) l = firstn a l ++ firstn b (skipn a l).
Proof.
  revert l. induction a as [|a IH]; intros [|x l]; cbn;
    rewrite ?firstn_nil; try reflexivity.
  now rewrite IH.
Qed.

(** Cutting a list into pieces of [c] elements and joining the first [n]
    pieces gives its first [c * n] elements. *)
Lemma concat_chunks {A : Type} (c n : nat) (l : list A) :
  List.concat (map (fun k => firstn c (skipn (c * k) l)) (seq 0 n))
  = firstn (c * n) l.
Proof.
  induction n as [|n IH]; [now rewrite Nat.mul_0_r|].
  rewrite seq_S, map_app, concat_app, IH. cbn [map List.concat Nat.add].
  rewrite app_nil_r. replace (c * S n) with (c * n + c) by lia.
  now rewrite firstn_add.
Qed.

(** The pools from which the batch of index [k] is taken. *)
Lemma batch_at_take (p : pools) (k : nat) :
  batch_at p k =
    take_batch {| high := skipn (2 * k) (high p);
                  medium := skipn (2 * k) (medium p);
                  low := skipn k (low p) |}.
Proof. reflexivity. Qed.

Lemma select_batch_at (p : pools) (k : nat) :
  tiered p ->
  select High (batch_at p k) = firstn 2 (skipn (2 * k) (high p)) /\
  select Medium (batch_at p k) = firstn 2 (skipn (2 * k) (medium p)) /\
  select Low (batch_at p k) = firstn 1 (skipn (1 * k) (low p)).
Proof.
  intros [Hh Hm Hl]. rewrite batch_at_take, Nat.mul_1_l.
  apply (@select_take_batch
           {| high := skipn (2 * k) (high p);
              medium := skipn (2 * k) (medium p);
              low := skipn k (low p) |}).
  split; cbn [high medium low]; now apply Forall_skipn.
Qed.

Lemma batch_count_bounds (p : pools) :
  length (high p) <= 2 * batch_count p /\
  length (medium p) <= 2 * batch_count p /\
  length (low p) <= 1 * batch_count p.
Proof.
  unfold batch_count.
  pose proof (Nat.div_mod_eq (length (high p) + 1) 2).
  pose proof (Nat.div_mod_eq (length (medium p) + 1) 2).
  pose proof (Nat.mod_upper_bound (length (high p) + 1) 2).
  pose proof (Nat.mod_upper_bound (length (medium p) + 1) 2).
  lia.
Qed.

(** The batch of index [k] holds the High rows 2k and 2k+1, the Medium rows
    2k and 2k+1 and the Low row k of the input, those that exist, and there
    are as many batches as the largest of half the High rows, half the
    Medium rows (rounded up) and the Low rows. *)
Theorem batches_in_closed_form (data : list categorized_row) :
  exists bs : list batch,
    create_balanced_batches data = Some bs /\
    length bs =
      Nat.max (Nat.max ((length (select High data) + 1) / 2)
                       ((length (select Medium data) + 1) / 2))
              (length (select Low data)) /\
    forall k,
      k < length bs ->
      nth_error bs k =
        Some (firstn 2 (skipn (2 * k) (select High data))
              ++ firstn 2 (skipn (2 * k) (select Medium data))
              ++ firstn 1 (skipn k (select Low data))).
Proof.
  eexists. split; [apply create_balanced_batches_map|].
  rewrite length_map, length_seq. split; [reflexivity|].
  intros k Hk. rewrite nth_error_map, nth_error_seq.
  destruct (Nat.ltb_spec k (batch_count (make_pools data))); [|lia].
  reflexivity.
Qed.

(** The batches keep the order of the input: the rows of one tier, read
    batch after batch, are the rows of that tier in the input, in the same
    order; and in each batch the High rows come first, then the Medium rows,
    then the Low row. *)
Theorem batches_keep_order (data : list categorized_row) :
  exists bs : list batch,
    create_balanced_batches data = Some bs /\
    (forall label : tier,
        List.concat (map (select label) bs) = select label data) /\
    Forall (fun b : batch =>
              b = select High b ++ select Medium b ++ select Low b) bs.
Proof.
  eexists. split; [apply create_balanced_batches_map|].
  pose proof (make_pools_tiered data) as Hp.
  pose proof (batch_count_bounds (make_pools data)) as (Bh & Bm & Bl).
  split.
  - intro label. rewrite map_map.
    destruct label.
    + rewrite (map_ext _ (fun k => firstn 1 (skipn (1 * k) (select Low data))))
        by (intro k; apply (select_batch_at k Hp)).
      rewrite concat_chunks. now apply firstn_all2.
    + rewrite (map_ext _ (fun k => firstn 2 (skipn (2 * k)
                                              (select Medium data))))
        by (intro k; apply (select_batch_at k Hp)).
      rewrite concat_chunks. now apply firstn_all2.
    + rewrite (map_ext _ (fun k => firstn 2 (skipn (2 * k) (select High data))))
        by (intro k; apply (select_batch_at k Hp)).
      rewrite concat_chunks. now apply firstn_all2.
  - apply Forall_forall. intros b Hb.
    apply in_map_iff in Hb as (k & <- & _).
    destruct (select_batch_at k Hp) as (-> & -> & ->).
    now rewrite Nat.mul_1_l.
Qed.

Lemma batch_at_counts (p : pools) (k : nat) :
  tiered p ->
  length (select High (batch_at p k)) = Nat.min 2 (length (high p) - 2 * k) /\
  length (select Medium (batch_at p k))
  = Nat.min 2 (length (medium p) - 2 * k) /\
  length (select Low (batch_at p k)) = Nat.min 1 (length (low p) - k) /\
  length (batch_at p k) =
    Nat.min 2 (length (high p) - 2 * k)
    + Nat.min 2 (length (medium p) - 2 * k)
    + Nat.min 1 (length (low p) - k).
Proof.
  intro Hp. destruct (select_batch_at k Hp) as (-> & -> & ->).
  unfold batch_at. rewrite !length_app, !length_firstn, !length_skipn.
  repeat split; lia.
Qed.

(** Batches never grow: a batch has, of each tier, at least as many rows as
    the batch after it, so the batches that are not full come last; and a
    batch has at most five rows. *)
Theorem batches_never_grow (data : list categorized_row) :
  exists bs : list batch,
    create_balanced_batches data = Some bs /\
    Forall (fun b : batch => length b <= 5) bs /\
    forall k b b',
      nth_error bs k = Some b ->
      nth_error bs (S k) = Some b' ->
      length (select High b') <= length (select High b) /\
      length (select Medium b') <= length (select Medium b) /\
      length (select Low b') <= length (select Low b) /\
      length b' <= length b.
Proof.
  eexists. split; [apply create_balanced_batches_map|].
  pose proof (make_pools_tiered data) as Hp. split.
  - apply Forall_forall. intros b Hb.
    apply in_map_iff in Hb as (k & <- & _).
    destruct (batch_at_counts k Hp) as (_ & _ & _ & ->). lia.
  - intros k b b' Hb Hb'.
    rewrite nth_error_map, nth_error_seq in Hb, Hb'.
    destruct (k <? batch_count (make_pools data)); [|discriminate].
    destruct (S k <? batch_count (make_pools data)); [|discriminate].
    cbn [option_map Nat.add] in Hb, Hb'.
    injection Hb as <-. injection Hb' as <-.
    destruct (batch_at_counts k Hp) as (-> & -> & -> & ->).
    destruct (batch_at_counts (S k) Hp) as (-> & -> & -> & ->).
    repeat split; lia.
Qed.

Lemma select_filter_has_tier (label : tier) (data : list categorized_row) :
  select label (filter has_tier data) = select label data.
Proof.
  unfold select, has_tier, has_category.
  induction data as [|r data IH]; [reflexivity|].
  cbn [filter]. destruct (category r) as [t|] eqn:E.
  - cbn [filter]. rewrite E.
    destruct (tier_eqb t label); [now rewrite IH | exact IH].
  - exact IH.
Qed.

Lemma select_nil_iff (data : list categorized_row) :
  select High data = [] /\ select Medium data = [] /\ select Low data = []
  <-> Forall (fun r => category r = None) data.
Proof.
  unfold select, has_category. induction data as [|r data IH].
  - split; [constructor | now repeat split].
  - cbn [filter].
    destruct (category r) as [[ | | ]|] eqn:E; cbn [tier_eqb].
    + split; [intros (_ & _ & H); discriminate H|].
      intro H. inversion H. congruence.
    + split; [intros (_ & H & _); discriminate H|].
      intro H. inversion H. congruence.
    + split; [intros (H & _); discriminate H|].
      intro H. inversion H. congruence.
    + rewrite IH. split; [now constructor | intro H; now inversion H].
Qed.

(** Rows without a tier count for nothing: the batches are those of the
    input with these rows removed, and there is no batch at all exactly when
    no row has a tier (in particular for an empty input). *)
Theorem batches_ignore_untiered (data : list categorized_row) :
  create_balanced_batches data
  = create_balanced_batches (filter has_tier data) /\
  (create_balanced_batches data = Some []
   <-> Forall (fun r => category r = None) data).
Proof.
  split.
  - rewrite !create_balanced_batches_map. unfold make_pools.
    now rewrite !select_filter_has_tier.
  - rewrite create_balanced_batches_map, <- select_nil_iff. split.
    + intro H. injection H as H.
      apply (f_equal (@List.length _)) in H.
      rewrite length_map, length_seq in H. cbn [List.length] in H.
      pose proof (batch_count_bounds (make_pools data)) as (Bh & Bm & Bl).
      rewrite H in Bh, Bm, Bl. cbn [make_pools high medium low] in Bh, Bm, Bl.
      repeat split; apply length_zero_iff_nil; lia.
    + intros (Hh & Hm & Hl). unfold batch_count, make_pools.
      cbn [high medium low]. now rewrite Hh, Hm, Hl.
Qed.

(** ** Topic Rotator: which batch gets which topic *)

Lemma planned_in_run {A : Type} (batches : list A) (topics : list topic)
    (weeks : nat) (a : assignment) :
  In a (flat_map
          (fun w => map (fun j => planned topics w j
                                    ((w - 1) * length batches + j))
                        (seq 0 (length batches)))
          (seq 1 weeks)) ->
  exists w j,
    1 <= w <= weeks /\ j < length batches /\
    a = planned topics w j ((w - 1) * length batches + j).
Proof.
  intro H. apply in_flat_map in H as (w & Hw & H).
  apply in_map_iff in H as (j & <- & Hj).
  apply in_seq in Hw. apply in_seq in Hj.
  exists w, j. repeat split; lia.
Qed.

Lemma title_at_shift (topics : list topic) (j c : nat) :
  title_at topics (c * length topics + j) = title_at topics j.
Proof.
  unfold title_at.
  now rewrite Nat.add_comm, Nat.Div0.mod_add.
Qed.

(** When the number of batches is a multiple of the number of topics, a
    batch gets the same topic in every week. *)
Theorem same_topic_every_week {A : Type} (batches : list A)
    (topics : list topic) (weeks : nat) :
  1 <= length topics ->
  length batches mod length topics = 0 ->
  exists assignments : list assignment,
    assign_topics batches topics weeks = Ok assignments /\
    forall a a',
      In a assignments -> In a' assignments ->
      Batch a = Batch a' -> AssignedTopic a = AssignedTopic a'.
Proof.
  intros HT Hmod.
  assert (Hne : topics <> [])
    by (destruct topics; [cbn in HT; lia | congruence]).
  eexists. split; [apply (assign_topics_run Hne)|].
  intros a a' Ha Ha' Hbatch.
  apply planned_in_run in Ha as (w & j & _ & _ & ->).
  apply planned_in_run in Ha' as (w' & j' & _ & _ & ->).
  cbn [planned Batch AssignedTopic] in *.
  apply batch_label_inj in Hbatch. subst j'.
  apply Nat.Div0.div_exact in Hmod.
  set (q := length batches / length topics) in *.
  rewrite Hmod.
  replace ((w - 1) * (length topics * q) + j)
    with ((w - 1) * q * length topics + j) by lia.
  replace ((w' - 1) * (length topics * q) + j)
    with ((w' - 1) * q * length topics + j) by lia.
  now rewrite !title_at_shift.
Qed.

Lemma same_topic_every_week_example :
  exists assignments : list assignment,
    assign_topics example_batches example_topics 5 = Ok assignments /\
    forall a a',
      In a assignments -> In a' assignments ->
      Batch a = Batch a' -> AssignedTopic a = AssignedTopic a'.
Proof.
  apply (@same_topic_every_week batch example_batches example_topics 5).
  - cbn. lia.
  - reflexivity.
Defined.

Lemma mod_add_cancel (c i j T : nat) :
  i < T -> j < T -> (c + i) mod T = (c + j) mod T -> i = j.
Proof.
  intros Hi Hj H.
  pose proof (Nat.div_mod_eq (c + i) T) as Ei.
  pose proof (Nat.div_mod_eq (c + j) T) as Ej.
  rewrite H in Ei.
  set (r := (c + j) mod T) in *.
  set (qi := (c + i) / T) in *. set (qj := (c + j) / T) in *.
  assert (qi = qj) by nia. subst qi. nia.
Qed.

Lemma title_at_inj (topics : list topic) (k k' : nat) :
  topics <> [] ->
  NoDup (map Topic topics) ->
  title_at topics k = title_at topics k' ->
  k mod length topics = k' mod length topics.
Proof.
  intros Hne Hnd H.
  destruct (next_at Hne k) as (t & Ht & Et & _).
  destruct (next_at Hne k') as (t' & Ht' & Et' & _).
  rewrite <- Et, <- Et' in H.
  apply (proj1 (NoDup_nth_error (map Topic topics)) Hnd).
  - rewrite length_map. apply Nat.mod_upper_bound.
    destruct topics; [congruence | discriminate].
  - rewrite !nth_error_map, Ht, Ht'. cbn. now rewrite H.
Qed.

(** When the titles are all different and there are no more batches than
    topics, two batches never get the same topic in the same week. *)
Theorem distinct_topics_in_a_week {A : Type} (batches : list A)
    (topics : list topic) (weeks : nat) :
  1 <= length topics ->
  NoDup (map Topic topics) ->
  length batches <= length topics ->
  exists assignments : list assignment,
    assign_topics batches topics weeks = Ok assignments /\
    forall a a',
      In a assignments -> In a' assignments ->
      Week a = Week a' -> AssignedTopic a = AssignedTopic a' ->
      Batch a = Batch a'.
Proof.
  intros HT Hnd HB.
  assert (Hne : topics <> [])
    by (destruct topics; [cbn in HT; lia | congruence]).
  eexists. split; [apply (assign_topics_run Hne)|].
  intros a a' Ha Ha' Hweek Htitle.
  apply planned_in_run in Ha as (w & j & _ & Hj & ->).
  apply planned_in_run in Ha' as (w' & j' & _ & Hj' & ->).
  cbn [planned Week Batch AssignedTopic] in *. subst w'.
  apply (title_at_inj _ _ Hne Hnd) in Htitle.
  apply mod_add_cancel in Htitle; [now subst | lia | lia].
Qed.

Lemma distinct_topics_in_a_week_example :
  exists assignments : list assignment,
    assign_topics example_batches example_topics 5 = Ok assignments /\
    forall a a',
      In a assignments -> In a' assignments ->
      Week a = Week a' -> AssignedTopic a = AssignedTopic a' ->
      Batch a = Batch a'.
Proof.
  apply (@distinct_topics_in_a_week batch example_batches example_topics 5).
  - cbn. lia.
  - cbn. repeat constructor; cbn; intuition discriminate.
  - cbn. lia.
Defined.

(** ** Output Composer: any list of assignments *)

Lemma add_weeks_repeated (assignments : list assignment) (weeks : list nat) :
  forall t : table,
    (exists w, In w weeks /\
               unique (map fst (week_topics w assignments)) = false) ->
    add_weeks weeks assignments t = Raise InvalidIndexError.
Proof.
  induction weeks as [|w0 weeks IH]; intros t (w & Hin & Hw);
    [contradiction|].
  cbn [add_weeks]. unfold series_map.
  destruct (unique (map fst (week_topics w0 assignments))) eqn:E.
  - cbn [bind]. apply IH. exists w. split; [|exact Hw].
    destruct Hin as [->|Hin]; [congruence | exact Hin].
  - reflexivity.
Qed.

Lemma add_weeks_outcome (assignments : list assignment) (weeks : list nat)
    (t : table) :
  (exists t', add_weeks weeks assignments t = Ok t' /\
              forall w, In w weeks ->
                        unique (map fst (week_topics w assignments)) = true)
  \/ (add_weeks weeks assignments t = Raise InvalidIndexError /\
      exists w, In w weeks /\
                unique (map fst (week_topics w assignments)) = false).
Proof.
  revert t. induction weeks as [|w0 weeks IH]; intro t.
  - left. exists t. split; [reflexivity | intros w []].
  - destruct (unique (map fst (week_topics w0 assignments))) eqn:E.
    + cbn [add_weeks]. unfold series_map. rewrite E. cbn [bind].
      match goal with |- context [add_weeks weeks assignments ?u] =>
        destruct (IH u) as [(t' & Ht' & Hall)|(Hraise & w & Hin & Hw)]
      end.
      * left. exists t'. split; [exact Ht'|].
        intros w [<-|Hin]; [exact E | now apply Hall].
      * right. split; [exact Hraise|]. exists w. split; [now right | exact Hw].
    + right. split.
      * apply add_weeks_repeated. exists w0. split; [now left | exact E].
      * exists w0. split; [now left | exact E].
Qed.

Lemma unique_false_in (keys : list string) :
  unique keys = false -> keys <> [].
Proof. destruct keys; [discriminate | discriminate]. Qed.

Lemma week_topics_week (w : nat) (assignments : list assignment) :
  week_topics w assignments <> [] -> w <= list_max (map Week assignments).
Proof.
  unfold week_topics. intro H.
  destruct (filter (fun a => Week a =? w) assignments) as [|a l] eqn:E;
    [contradiction|].
  assert (Ha : In a (filter (fun a => Week a =? w) assignments))
    by (rewrite E; now left).
  apply filter_In in Ha as [Ha Hw]. apply Nat.eqb_eq in Hw. subst w.
  apply In_list_max. now apply in_map.
Qed.

(** [prepare_output] raises in three cases only: no batch (ValueError, from
    [pd.concat]); batches and no assignment (KeyError, for the column
    'Week'); batches, assignments, and two assignments of one week, from 1
    on, that name the same batch (InvalidIndexError, from [map]). *)
Theorem prepare_output_errors (batches : list batch)
    (assignments : list assignment) (e : exn) :
  prepare_output batches assignments = Raise e <->
    (batches = [] /\ e = ValueError) \/
    (batches <> [] /\ assignments = [] /\ e = KeyError) \/
    (batches <> [] /\ assignments <> [] /\ e = InvalidIndexError /\
     exists w, 1 <= w /\
               unique (map Batch (filter (fun a => Week a =? w) assignments))
               = false).
Proof.
  assert (Hkeys : forall w,
             map fst (week_topics w assignments)
             = map Batch (filter (fun a => Week a =? w) assignments))
    by (intro w; unfold week_topics; now rewrite map_map).
  unfold prepare_output.
  destruct batches as [|b batches].
  - cbn [enumerate List.length seq combine map pd_concat bind]. split.
    + intros [= <-]. left. now split.
    + intros [[_ ->]|[(H & _)|(H & _)]]; congruence.
  - rewrite pd_concat_enumerate by discriminate. cbn [bind].
    destruct assignments as [|a assignments].
    + cbn [max_week bind]. split.
      * intros [= <-]. right. left. repeat split. discriminate.
      * intros [[H _]|[(_ & _ & ->)|(_ & H & _)]]; congruence.
    + cbn [max_week bind].
      match goal with |- context [add_weeks ?ws ?asg ?u] =>
        destruct (add_weeks_outcome asg ws u)
          as [(t' & -> & Hall)|(-> & w & Hin & Hw)]
      end.
      * split; [discriminate|].
        intros [[H _]|[(_ & H & _)|(_ & _ & _ & w & Hw & Hdup)]];
          try discriminate.
        exfalso. rewrite <- Hkeys in Hdup.
        rewrite Hall in Hdup; [discriminate|].
        apply in_seq. split; [lia|].
        apply unique_false_in in Hdup.
        assert (week_topics w (a :: assignments) <> [])
          by (intro E; apply Hdup; now rewrite E).
        apply week_topics_week in H. lia.
      * split.
        -- intros [= <-]. right. right. repeat split; try discriminate.
           exists w. apply in_seq in Hin. split; [lia|].
           now rewrite <- Hkeys.
        -- intros [[H _]|[(_ & H & _)|(_ & _ & -> & _)]];
             try discriminate. reflexivity.
Qed.






(** ** The archive *)

Lemma export_from (batches : list batch) :
  forall s i b,
    nth_error batches i = Some b ->
    nth_error (map (fun '(i, b) =>
                      (("Batch_" ++ str (i + 1) ++ ".csv")%string, b))
                   (combine (seq s (length batches)) batches)) i
    = Some (("Batch_" ++ str (s + i + 1) ++ ".csv")%string, b).
Proof.
  induction batches as [|b0 batches IH]; intros s [|i] b H; try discriminate.
  - injection H as <-. cbn. now rewrite Nat.add_0_r.
  - cbn [List.length seq combine map nth_error]. rewrite (IH (S s) i b H).
    now replace (S s + i + 1) with (s + S i + 1) by lia.
Qed.

Lemma export_names_from (batches : list batch) :
  forall s,
    map fst (map (fun '(i, b) =>
                    (("Batch_" ++ str (i + 1) ++ ".csv")%string, b))
                 (combine (seq s (length batches)) batches))
    = map (fun i => ("Batch_" ++ str (i + 1) ++ ".csv")%string)
          (seq s (length batches)).
Proof.
  induction batches as [|b0 batches IH]; intro s; [reflexivity|].
  cbn [List.length seq combine map fst]. now rewrite IH.
Qed.

(** The archive has one entry per batch, in the order of the batches: the
    entry of the batch of index [i] is named Batch_<i+1>.csv and holds the
    rows of that batch; no two entries have the same name. *)
Theorem archive_entries (batches : list batch) :
  length (export_batches_individually batches) = length batches /\
  (forall i b,
      nth_error batches i = Some b ->
      nth_error (export_batches_individually batches) i
      = Some (("Batch_" ++ str (i + 1) ++ ".csv")%string, b)) /\
  NoDup (map fst (export_batches_individually batches)).
Proof.
  unfold export_batches_individually, enumerate. split; [|split].
  - now rewrite length_map, length_combine, length_seq, Nat.min_id.
  - intros i b H. exact (export_from batches 0 i H).
  - change (NoDup (map fst
             (map (fun '(i, b) =>
                     (("Batch_" ++ str (i + 1) ++ ".csv")%string, b))
                  (combine (seq 0 (length batches)) batches)))).
    rewrite export_names_from.
    apply Finite.Injective_map_NoDup; [|apply seq_NoDup].
    intros i j H. cbn in H. injection H as H.
    apply append_cancel_r, str_inj in H. lia.
Qed.

(** ** The topics of the sidebar *)

Section SidebarFacts.

Import App.
Local Open Scope string_scope.

Lemma collect_topics_filter (entries : list (string * string)) :
  forall acc : list topic,
    collect_topics entries acc =
      (acc ++ map (fun e => {| Topic := fst e; Description := snd e |})
                  (filter (fun e => negb (fst e =? "")) entries))%list.
Proof.
  induction entries as [|[topic desc] entries IH]; intro acc; cbn.
  - now rewrite app_nil_r.
  - rewrite IH. destruct (topic =? ""); cbn; [reflexivity|].
    now rewrite <- app_assoc.
Qed.

(** The topics handed to the Rotator are the entries that have a title, in
    the order entered, whenever there is one, whatever the check box; with
    no titled entry they are the seven default topics if the box is checked
    and none if it is not.  So the list is empty exactly when no title was
    entered and the box is unchecked, and no topic of it has an empty
    title. *)
Theorem sidebar_topics_choice (entries : list (string * string))
    (use_default : bool) :
  let titled := filter (fun e => negb (fst e =? "")) entries in
  sidebar_topics entries use_default =
    match titled with
    | [] => if use_default then default_topics else []
    | _ :: _ =>
        map (fun e => {| Topic := fst e; Description := snd e |}) titled
    end /\
  (sidebar_topics entries use_default = []
   <-> titled = [] /\ use_default = false) /\
  Forall (fun t => Topic t <> "") (sidebar_topics entries use_default).
Proof.
  cbv zeta. unfold sidebar_topics. rewrite collect_topics_filter.
  cbn [app].
  assert (Htitled : Forall (fun e : string * string => fst e <> "")
                      (filter (fun e => negb (fst e =? "")) entries)).
  { apply Forall_forall. intros e He. apply filter_In in He as [_ He].
    apply negb_true_iff, String.eqb_neq in He. exact He. }
  destruct (filter (fun e => negb (fst e =? "")) entries) as [|e titled]
    eqn:Ef.
  - cbn [map List.length]. rewrite Nat.eqb_refl, orb_true_r.
    destruct use_default; repeat split; try discriminate;
      try tauto; try (intros [_ H]; discriminate H).
    + repeat constructor; discriminate.
    + constructor.
  - assert (E0 : (length entries =? 0)%nat = false)
      by (destruct entries; [discriminate Ef | reflexivity]).
    rewrite E0. cbn [map List.length Nat.eqb orb].
    repeat split; try discriminate.
    + intros [H _]. discriminate H.
    + apply Forall_forall. intros t Ht.
      change (In t (map (fun e0 => {| Topic := fst e0; Description := snd e0 |})
                        (e :: titled))) in Ht.
      apply in_map_iff in Ht as (e0 & <- & He0). cbn [Topic].
      rewrite Forall_forall in Htitled. now apply Htitled.
Qed.

End SidebarFacts.

(** ** From the score to the tier *)

Section ScoreToTier.

Local Open Scope string_scope.








End ScoreToTier.

(** ** Loading the files *)

Section LoaderFacts.

Import Loader.
Local Open Scope string_scope.

Lemma load_loop_acc (files : list upload) :
  forall (all_data : list (list student)) (reports : list report),
    load_loop files all_data reports =
      match load_loop files [] [] with
      | Some (a, r) => Some ((all_data ++ a)%list, (reports ++ r)%list)
      | None => None
      end.
Proof.
  induction files as [|file files IH]; intros all_data reports.
  - cbn. now rewrite !app_nil_r.
  - cbn [load_loop]. destruct (clean_file file) as [[r|df]|]; [| |reflexivity].
    + rewrite (IH all_data (reports ++ [r])%list), (IH [] ([] ++ [r])%list).
      destruct (load_loop files [] []) as [[a r']|]; [|reflexivity].
      cbn [app]. now rewrite <- app_assoc.
    + rewrite (IH (all_data ++ [df])%list reports), (IH ([] ++ [df])%list []).
      destruct (load_loop files [] []) as [[a r']|]; [|reflexivity].
      cbn [app]. now rewrite <- app_assoc.
Qed.

Lemma load_concat (files : list upload) :
  load_and_clean_data files =
    match load_loop files [] [] with
    | Some (all_data, reports) => Some (reports, List.concat all_data)
    | None => None
    end.
Proof.
  unfold load_and_clean_data.
  destruct (load_loop files [] []) as [[[|df all_data] reports]|];
    reflexivity.
Qed.

(** What one more file in front changes. *)
Lemma load_cons (file : upload) (files : list upload) :
  load_and_clean_data (file :: files) =
    match clean_file file, load_and_clean_data files with
    | Some (inl r), Some (reports, data) => Some (r :: reports, data)
    | Some (inr df), Some (reports, data) => Some (reports, (df ++ data)%list)
    | _, _ => None
    end.
Proof.
  rewrite !load_concat. cbn [load_loop].
  destruct (clean_file file) as [[r|df]|]; [| |reflexivity].
  - rewrite load_loop_acc.
    destruct (load_loop files [] []) as [[a r']|]; reflexivity.
  - rewrite load_loop_acc.
    destruct (load_loop files [] []) as [[a r']|]; reflexivity.
Qed.

(** Files are loaded independently of each other: the reports and the rows
    for a list of files are those of its first part followed by those of the
    rest. *)
Theorem load_files_independently (first rest : list upload) :
  load_and_clean_data (first ++ rest)%list =
    match load_and_clean_data first, load_and_clean_data rest with
    | Some (reports1, data1), Some (reports2, data2) =>
        Some ((reports1 ++ reports2)%list, (data1 ++ data2)%list)
    | _, _ => None
    end.
Proof.
  induction first as [|file first IH].
  - cbn [app].
    change (load_and_clean_data [])
      with (Some (@nil report, @nil student)).
    destruct (load_and_clean_data rest) as [[r d]|]; reflexivity.
  - cbn [app]. rewrite !load_cons, IH.
    destruct (clean_file file) as [[r|df]|];
      destruct (load_and_clean_data first) as [[r1 d1]|];
      destruct (load_and_clean_data rest) as [[r2 d2]|];
      try reflexivity.
    cbn [app]. now rewrite app_assoc.
Qed.

(** A file that cannot be read, or that lacks a column 'name' or 'score'
    after its labels are put in lower case and trimmed, gives one report and
    no row, and the other files are loaded as without it. *)
Theorem unusable_file_skipped (file : upload) (files : list upload) :
  (read_csv file = None \/
   exists df,
     read_csv file = Some df /\
     (~ In "name" (map clean_label (labels df)) \/
      ~ In "score" (map clean_label (labels df)))) ->
  load_and_clean_data (file :: files) =
    match load_and_clean_data files with
    | Some (reports, data) =>
        Some (match read_csv file with
              | None => ErrorInFile (file_name file) ReadError
              | Some _ => MissingColumns (file_name file)
              end :: reports, data)
    | None => None
    end.
Proof.
  intros [Hread|(df & Hread & Hmiss)].
  - rewrite load_cons. unfold clean_file. rewrite Hread.
    destruct (load_and_clean_data files) as [[r d]|]; reflexivity.
  - rewrite load_cons. unfold clean_file. rewrite Hread.
    assert (E : negb (has_label "name" (map clean_label (labels df)))
                || negb (has_label "score" (map clean_label (labels df)))
                = true).
    { apply orb_true_iff. unfold has_label.
      destruct Hmiss as [H|H]; [left|right]; apply negb_true_iff;
        destruct (existsb _ _) eqn:E; try reflexivity;
        apply existsb_exists in E as (l & Hl & El);
        apply String.eqb_eq in El; subst l; contradiction. }
    rewrite E.
    destruct (load_and_clean_data files) as [[r d]|]; reflexivity.
Qed.

Lemma unusable_file_skipped_example :
  load_and_clean_data
    [{| file_name := "a.csv";
        read_csv := Some {| labels := ["Name"; "Marks"];
                            rows := [[Text "Ann"; Text "18/20"]] |} |};
     {| file_name := "b.csv";
        read_csv := Some {| labels := ["Name"; "Score"];
                            rows := [[Text "Bob"; Text "15/20"]] |} |}] =
    match load_and_clean_data
            [{| file_name := "b.csv";
                read_csv := Some {| labels := ["Name"; "Score"];
                                    rows := [[Text "Bob"; Text "15/20"]] |} |}]
    with
    | Some (reports, data) => Some (MissingColumns "a.csv" :: reports, data)
    | None => None
    end.
Proof.
  apply (@unusable_file_skipped
           {| file_name := "a.csv";
              read_csv := Some {| labels := ["Name"; "Marks"];
                                  rows := [[Text "Ann"; Text "18/20"]] |} |}).
  right. eexists. split; [reflexivity|]. right. cbn.
  intros [H|[H|[]]]; discriminate H.
Defined.

Lemma occurrences_once (label : string) (columns : list string) :
  occurrences label columns = 1 ->
  has_label label columns = true /\
  (1 <? occurrences label columns)%nat = false.
Proof.
  intro H. rewrite H. split; [|reflexivity].
  unfold has_label, occurrences in *.
  induction columns as [|c columns IH]; [discriminate|].
  cbn in *. destruct (label =? c); [reflexivity | now apply IH].
Qed.

Lemma apply_score_stops (before after : list (cell * cell)) (nm bad : cell)
    (e : file_error) :
  Forall (fun r => exists x v,
              snd r = Text x /\ normalize_score x = Some (Ok v)) before ->
  ((exists q, bad = Number q) /\ e = AttributeError) \/
  (exists x e', bad = Text x /\ normalize_score x = Some (Raise e') /\
                e = ScoreError e') ->
  apply_score (map snd (before ++ (nm, bad) :: after)%list) = Some (inl e).
Proof.
  intros Hbefore Hbad.
  induction Hbefore as [|r before (x & v & Hr & Hx) _ IH].
  - cbn [app map snd apply_score].
    destruct Hbad as [[(q & ->) ->]|(x & e' & -> & Hx & ->)];
      [reflexivity|]. now rewrite Hx.
  - cbn [app map apply_score]. rewrite Hr, Hx.
    change (map snd (before ++ (nm, bad) :: after)%list)
      with (map snd (before ++ (nm, bad) :: after)%list) in IH.
    now rewrite IH.
Qed.

(** One score that fails rejects the whole file.  When, among the rows that
    have a name and a score, the first score on which the expression does
    not return is a number (AttributeError) or a text on which it raises,
    the file gives one report and no row: neither the rows before that one
    nor the rows after it are loaded.  The other files are loaded as without
    it. *)
Theorem file_rejected_as_a_whole (file : upload) (df : frame)
    (before after : list (cell * cell)) (nm bad : cell) (e : file_error)
    (files : list upload) :
  read_csv file = Some df ->
  occurrences "name" (map clean_label (labels df)) = 1 ->
  occurrences "score" (map clean_label (labels df)) = 1 ->
  name_score_rows (position "name" (map clean_label (labels df)))
                  (position "score" (map clean_label (labels df)))
                  (rows df)
  = (before ++ (nm, bad) :: after)%list ->
  Forall (fun r => exists x v,
              snd r = Text x /\ normalize_score x = Some (Ok v)) before ->
  ((exists q, bad = Number q) /\ e = AttributeError) \/
  (exists x e', bad = Text x /\ normalize_score x = Some (Raise e') /\
                e = ScoreError e') ->
  load_and_clean_data (file :: files) =
    match load_and_clean_data files with
    | Some (reports, data) =>
        Some (ErrorInFile (file_name file) e :: reports, data)
    | None => None
    end.
Proof.
  intros Hread Hname Hscore Hkept Hbefore Hbad.
  rewrite load_cons. unfold clean_file. rewrite Hread.
  destruct (occurrences_once _ _ Hname) as [-> ->].
  destruct (occurrences_once _ _ Hscore) as [-> ->].
  cbn [negb orb]. rewrite Hkept.
  rewrite (apply_score_stops _ _ Hbefore Hbad).
  destruct (load_and_clean_data files) as [[r d]|]; reflexivity.
Qed.

Lemma file_rejected_as_a_whole_example :
  load_and_clean_data
    [{| file_name := "a.csv";
        read_csv := Some {| labels := [" Name"; "SCORE "];
                            rows := [[Text "Ann"; Text "18/20"];
                                     [Text "Bob"; Text "20/0"];
                                     [Text "Cid"; Text "15/20"]] |} |}] =
    match load_and_clean_data [] with
    | Some (reports, data) =>
        Some (ErrorInFile "a.csv" (ScoreError ZeroDivisionError) :: reports,
              data)
    | None => None
    end.
Proof.
  apply (@file_rejected_as_a_whole
           {| file_name := "a.csv";
              read_csv := Some {| labels := [" Name"; "SCORE "];
                                  rows := [[Text "Ann"; Text "18/20"];
                                           [Text "Bob"; Text "20/0"];
                                           [Text "Cid"; Text "15/20"]] |} |}
           {| labels := [" Name"; "SCORE "];
              rows := [[Text "Ann"; Text "18/20"];
                       [Text "Bob"; Text "20/0"];
                       [Text "Cid"; Text "15/20"]] |}
           [(Text "Ann", Text "18/20")] [(Text "Cid", Text "15/20")]
           (Text "Bob") (Text "20/0")).
  - reflexivity.
  - reflexivity.
  - reflexivity.
  - reflexivity.
  - repeat constructor. eexists _, _. split; reflexivity.
  - right. eexists _, _. repeat split; reflexivity.
Defined.

Lemma accepted_rows (kept : list (cell * cell)) (students : list student) :
  Forall2 (fun r s => exists x v,
               r = (Text (name s), Text x) /\
               normalize_score x = Some (Ok v) /\
               score s = number v) kept students ->
  apply_score (map snd kept) = Some (inr (map score students)) /\
  students_of (map fst kept) (map score students) = Some students.
Proof.
  induction 1 as [|r s kept students (x & v & -> & Hx & Hs) _ [IHa IHs]].
  - now split.
  - cbn [map fst snd apply_score students_of].
    rewrite Hx, IHa, IHs, Hs. split; [reflexivity|].
    destruct s as [n q]. cbn in *. now rewrite Hs.
Qed.

(** A file with one column 'name' and one column 'score' is kept when every
    row that has both a name and a score has a text as name and a score on
    which the expression returns: it gives no report and, in order, one row
    per such row, with the number returned as score.  The rows that lack a
    name or a score are left out without a report. *)
Theorem file_accepted (file : upload) (df : frame) (students : list student)
    (files : list upload) :
  read_csv file = Some df ->
  occurrences "name" (map clean_label (labels df)) = 1 ->
  occurrences "score" (map clean_label (labels df)) = 1 ->
  Forall2 (fun r s => exists x v,
               r = (Text (name s), Text x) /\
               normalize_score x = Some (Ok v) /\
               score s = number v)
          (filter (fun r => present (fst r) && present (snd r))
             (map (fun row =>
                     (field_at row (position "name"
                                      (map clean_label (labels df))),
                      field_at row (position "score"
                                      (map clean_label (labels df)))))
                  (rows df)))
          students ->
  load_and_clean_data (file :: files) =
    match load_and_clean_data files with
    | Some (reports, data) => Some (reports, (students ++ data)%list)
    | None => None
    end.
Proof.
  intros Hread Hname Hscore Hrows.
  rewrite load_cons. unfold clean_file. rewrite Hread.
  destruct (occurrences_once _ _ Hname) as [-> ->].
  destruct (occurrences_once _ _ Hscore) as [-> ->].
  cbn [negb orb]. unfold name_score_rows.
  destruct (accepted_rows Hrows) as [-> ->].
  destruct (load_and_clean_data files) as [[r d]|]; reflexivity.
Qed.

Lemma file_accepted_example :
  load_and_clean_data
    [{| file_name := "a.csv";
        read_csv := Some {| labels := ["Score"; "Class"; "Name"];
                            rows := [[Text "18/20"; Text "x"; Text "Ann"];
                                     [Missing; Text "x"; Text "Bob"];
                                     [Text "3/4"; Missing; Text "Cid"];
                                     [Text "1/2"]] |} |}] =
    match load_and_clean_data [] with
    | Some (reports, data) =>
        Some (reports,
              ([{| name := "Ann"; score := number (PyFloat (1800 # 20)) |};
                {| name := "Cid"; score := number (PyFloat (300 # 4)) |}]
               ++ data)%list)
    | None => None
    end.
Proof.
  apply (@file_accepted
           {| file_name := "a.csv";
              read_csv := Some {| labels := ["Score"; "Class"; "Name"];
                                  rows := [[Text "18/20"; Text "x"; Text "Ann"];
                                           [Missing; Text "x"; Text "Bob"];
                                           [Text "3/4"; Missing; Text "Cid"];
                                           [Text "1/2"]] |} |}
           {| labels := ["Score"; "Class"; "Name"];
              rows := [[Text "18/20"; Text "x"; Text "Ann"];
                       [Missing; Text "x"; Text "Bob"];
                       [Text "3/4"; Missing; Text "Cid"];
                       [Text "1/2"]] |}).
  - reflexivity.
  - reflexivity.
  - reflexivity.
  - cbn. repeat constructor; eexists _, _; repeat split; reflexivity.
Defined.

End LoaderFacts.

Section HeaderFacts.

Import Loader.
Local Open Scope string_scope.

Lemma lower_app (s t : string) : lower (s ++ t) = lower s ++ lower t.
Proof. induction s as [|c s IH]; cbn; [reflexivity | now rewrite IH]. Qed.

Lemma lower_char_space (c : ascii) : isspace c = true -> lower_char c = c.
Proof.
  destruct c as [[] [] [] [] [] [] [] []]; cbv; congruence.
Qed.

Lemma lower_spaces (w : string) :
  forallb_string isspace w = true -> lower w = w.
Proof.
  induction w as [|c w IH]; cbn; [reflexivity|].
  rewrite andb_true_iff. intros [Hc Hw].
  now rewrite (lower_char_space _ Hc), (IH Hw).
Qed.

(** A label is taken for 'name' or for 'score' whatever the case of its
    letters and the white space around it. *)
Theorem header_any_case_and_padding (w1 s w2 : string) :
  forallb_string isspace w1 = true ->
  forallb_string isspace w2 = true ->
  lower s = "name" \/ lower s = "score" ->
  clean_label (w1 ++ s ++ w2) = lower s.
Proof.
  intros H1 H2 Hs. unfold clean_label.
  rewrite !lower_app, (lower_spaces _ H1), (lower_spaces _ H2).
  apply strip_padded; try assumption;
    destruct Hs as [-> | ->]; (reflexivity || discriminate).
Qed.

Lemma header_any_case_and_padding_example :
  clean_label "  ScOrE " = lower "ScOrE".
Proof.
  apply (@header_any_case_and_padding "  " "ScOrE" " ");
    try reflexivity.
  now right.
Defined.

End HeaderFacts.

(** ** The main part of the script *)

Section MainFacts.

Import Loader App.
Local Open Scope string_scope.

Lemma tiers_perm (l : list categorized_row) :
  Permutation (select High l ++ select Medium l ++ select Low l)
              (filter has_tier l).
Proof.
  unfold select, has_tier, has_category.
  induction l as [|r l IH]; [constructor|].
  cbn [filter]. destruct (category r) as [[ | | ]|]; cbn [tier_eqb].
  - rewrite <- IH. rewrite !app_assoc. symmetry. apply Permutation_middle.
  - rewrite <- IH. symmetry. apply Permutation_middle.
  - cbn [app]. now constructor.
  - exact IH.
Qed.

Lemma graded_rows (data : list student) :
  map who (filter has_tier (categorize_students data)) = filter graded data.
Proof.
  unfold categorize_students, has_tier, graded.
  induction data as [|s data IH]; [reflexivity|].
  cbn [map filter category].
  destruct (categorize (score s)); cbn [map who]; now rewrite IH.
Qed.

Lemma no_batch_iff (data : list categorized_row) :
  create_balanced_batches data = Some []
  <-> Forall (fun r => category r = None) data.
Proof.
  rewrite create_balanced_batches_map, <- select_nil_iff. split.
  - intro H. injection H as H.
    apply (f_equal (@List.length _)) in H.
    rewrite length_map, length_seq in H. cbn [List.length] in H.
    pose proof (batch_count_bounds (make_pools data)) as (Bh & Bm & Bl).
    rewrite H in Bh, Bm, Bl. cbn [make_pools high medium low] in Bh, Bm, Bl.
    repeat split; apply length_zero_iff_nil; lia.
  - intros (Hh & Hm & Hl). unfold batch_count, make_pools.
    cbn [high medium low]. now rewrite Hh, Hm, Hl.
Qed.

Lemma no_graded_rows (data : list student) :
  existsb graded data = false <->
  Forall (fun r => category r = None) (categorize_students data).
Proof.
  unfold categorize_students, graded.
  induction data as [|s data IH]; cbn [existsb map].
  - split; [constructor | reflexivity].
  - rewrite orb_false_iff, IH. destruct (categorize (score s)) eqn:E.
    + split; [intros [H _]; discriminate H|].
      intro H. inversion H as [|? ? Hc]. cbn in Hc. congruence.
    + split; [intros [_ H]; now constructor|].
      intro H. inversion H. now split.
Qed.

Lemma compose_no_batch (topics : list topic) (weeks : nat) :
  compose [] topics weeks = Raise ValueError.
Proof.
  unfold compose, assign_topics. now rewrite assign_weeks_no_batch.
Qed.

(** The run from batches and topics that are not empty. *)
Lemma compose_returns (batches : list batch) (topics : list topic)
    (weeks : nat) :
  batches <> [] -> topics <> [] -> 1 <= weeks ->
  exists t : table,
    compose batches topics weeks
    = Ok (t, export_batches_individually batches) /\
    Name t = map (fun r => name (who r)) (List.concat batches) /\
    map fst (added t) = map week_label (seq 1 weeks).
Proof.
  intros Hne Htopics HW.
  assert (HB : 0 < length batches)
    by (destruct batches; [congruence | cbn; lia]).
  unfold compose. rewrite (assign_topics_run Htopics). cbn [bind].
  unfold prepare_output.
  rewrite (pd_concat_enumerate _ Hne). cbn [bind].
  rewrite max_week_plan by lia. cbn [bind].
  rewrite add_weeks_run; cycle 1.
  { intros w _. rewrite week_topics_plan.
    destruct ((1 <=? w)%nat && (w <? 1 + weeks)%nat);
      [apply unique_series | reflexivity]. }
  { intros lc w []. }
  cbn [bind]. eexists. split; [reflexivity|].
  cbn [Name added app]. split; [apply rows_names | now rewrite map_map].
Qed.

(** With at least one student who gets a tier and at least one topic, the
    page shows the number of students loaded, then the table and the
    archive: the table has one row for each student with a tier and none for
    the others, and the five columns of the weeks 1 to 5. *)
Theorem process_shows_table (data : list student) (topics : list topic) :
  existsb graded data = true ->
  topics <> [] ->
  exists (bs : list batch) (t : table),
    create_balanced_batches (categorize_students data) = Some bs /\
    process data topics
    = Some (Processed (length data)
                      (Ok (t, export_batches_individually bs))) /\
    Permutation (Name t) (map name (filter graded data)) /\
    map fst (added t) = map week_label (seq 1 5).
Proof.
  intros Hgraded Htopics.
  destruct (create_balanced_batches_trace (categorize_students data))
    as (n & bs & _ & _ & Hrun & _ & _ & Hperm & _).
  assert (Hbs : bs <> []).
  { intros ->. apply no_batch_iff, no_graded_rows in Hrun. congruence. }
  destruct (compose_returns (weeks := 5) Hbs Htopics ltac:(lia))
    as (t & Hcompose & Hname & Hcols).
  exists bs, t. split; [exact Hrun|]. split; [|split].
  - unfold process. destruct data as [|s data]; [discriminate|].
    now rewrite Hrun, Hcompose.
  - rewrite Hname, <- graded_rows, <- tiers_perm, <- Hperm.
    now rewrite map_map.
  - exact Hcols.
Qed.

Lemma process_shows_table_example :
  exists (bs : list batch) (t : table),
    create_balanced_batches (categorize_students example_students) = Some bs /\
    process example_students default_topics
    = Some (Processed (length example_students)
                      (Ok (t, export_batches_individually bs))) /\
    Permutation (Name t) (map name (filter graded example_students)) /\
    map fst (added t) = map week_label (seq 1 5).
Proof.
  apply (@process_shows_table example_students default_topics).
  - reflexivity.
  - discriminate.
Defined.

(** Without a student who gets a tier, or without a topic, the page shows no
    table and no archive: nothing at all when no row was loaded; otherwise
    the number of students loaded and then the exception of the run, which
    is ValueError when no student gets a tier, whatever the topics, and
    StopIteration when some student does and there is no topic. *)
Theorem process_without_table (data : list student) (topics : list topic) :
  existsb graded data = false \/ topics = [] ->
  process data topics =
    Some match data with
         | [] => Nothing
         | _ :: _ =>
             Processed (length data)
               (Raise (if existsb graded data then StopIteration
                       else ValueError))
         end.
Proof.
  intro H. unfold process. destruct data as [|s data]; [reflexivity|].
  destruct (create_balanced_batches_trace (categorize_students (s :: data)))
    as (n & bs & _ & _ & Hrun & _).
  rewrite Hrun. do 2 f_equal.
  destruct (existsb graded (s :: data)) eqn:Hg.
  - destruct H as [H | ->]; [discriminate|].
    unfold compose. rewrite assign_topics_no_topic.
    destruct bs as [|b bs]; [|reflexivity].
    apply no_batch_iff, no_graded_rows in Hrun. congruence.
  - apply no_graded_rows, no_batch_iff in Hg.
    assert (bs = []) by congruence. subst bs. apply compose_no_batch.
Qed.

Lemma process_without_table_example :
  process [{| name := "s6"; score := 101 |}] default_topics =
    Some match [{| name := "s6"; score := 101 |}] with
         | [] => Nothing
         | _ :: _ =>
             Processed (length [{| name := "s6"; score := 101 |}])
               (Raise (if existsb graded [{| name := "s6"; score := 101 |}]
                       then StopIteration else ValueError))
         end.
Proof.
  apply (@process_without_table [{| name := "s6"; score := 101 |}]
           default_topics).
  left. reflexivity.
Defined.

(** A file that cannot be read or lacks a column changes nothing of what
    the page shows but for its report. *)
Theorem main_skips_unusable_file (file : upload) (files : list upload)
    (topics : list topic) :
  (read_csv file = None \/
   exists df,
     read_csv file = Some df /\
     (~ In "name" (map clean_label (labels df)) \/
      ~ In "score" (map clean_label (labels df)))) ->
  main (file :: files) topics =
    match main files topics with
    | Some (reports, shown) =>
        Some (match read_csv file with
              | None => ErrorInFile (file_name file) ReadError
              | Some _ => MissingColumns (file_name file)
              end :: reports, shown)
    | None => None
    end.
Proof.
  intro H.
  assert (Hclean : clean_file file =
            Some (inl match read_csv file with
                      | None => ErrorInFile (file_name file) ReadError
                      | Some _ => MissingColumns (file_name file)
                      end)).
  { unfold clean_file. destruct H as [->|(df & -> & Hmiss)]; [reflexivity|].
    assert (E : negb (has_label "name" (map clean_label (labels df)))
                || negb (has_label "score" (map clean_label (labels df)))
                = true).
    { apply orb_true_iff. unfold has_label.
      destruct Hmiss as [H|H]; [left|right]; apply negb_true_iff;
        destruct (existsb _ _) eqn:E; try reflexivity;
        apply existsb_exists in E as (l & Hl & El);
        apply String.eqb_eq in El; subst l; contradiction. }
    now rewrite E. }
  unfold main. rewrite load_cons, Hclean.
  destruct files as [|file' files].
  - reflexivity.
  - destruct (load_and_clean_data (file' :: files)) as [[reports data]|];
      [|reflexivity].
    destruct (process data topics); reflexivity.
Qed.

Lemma main_skips_unusable_file_example :
  main [{| file_name := "a.csv"; read_csv := None |};
        {| file_name := "b.csv";
           read_csv := Some {| labels := ["Name"; "Score"];
                               rows := [[Text "Bob"; Text "15/20"]] |} |}]
       default_topics =
    match main [{| file_name := "b.csv";
                   read_csv :=
                     Some {| labels := ["Name"; "Score"];
                             rows := [[Text "Bob"; Text "15/20"]] |} |}]
               default_topics with
    | Some (reports, shown) =>
        Some (ErrorInFile "a.csv" ReadError :: reports, shown)
    | None => None
    end.
Proof.
  apply (@main_skips_unusable_file
           {| file_name := "a.csv"; read_csv := None |}).
  now left.
Defined.

End MainFacts.
